(** * FoodieBot service worker: offline caching layer

    A shallow embedding of the service worker script (cache partitions,
    request classification, the three caching strategies, the offline
    fallback, activation clean-up and background sync) together with the
    properties its specification states about it. *)

From Stdlib Require Import String Ascii ZArith List Bool Lia.
From stdpp Require Import base option list strings gmap fin_maps.
Import ListNotations.

Local Open Scope string_scope.
Local Open Scope Z_scope.

(** ** JavaScript string primitives *)

Module JSString.

(** [s.startsWith(t)] *)
Definition startsWith (s t : string) : bool := String.prefix t s.

(** [s.endsWith(t)]: the last [length t] characters of [s] are [t]. *)
Definition endsWith (s t : string) : bool :=
  (String.length t <=? String.length s)%nat
  && String.eqb
       (String.substring (String.length s - String.length t)
                         (String.length t) s) t.

(** A double quote and a line feed, for literals that contain them. *)
Definition dq : string := String (ascii_of_nat 34) EmptyString.
Definition nl : string := String (ascii_of_nat 10) EmptyString.

(** [xs.join("")] *)
Definition concat_all (xs : list string) : string :=
  fold_right String.append EmptyString xs.

(** Truthiness of [s.match(/\.(e1|e2|...)$/)]: without the multiline flag
    [$] is the end of the input, so the match succeeds exactly when [s]
    ends in a dot followed by one of the alternatives. *)
Definition matchesExtension (exts : list string) (s : string) : bool :=
  existsb (fun e => endsWith s (String.append "." e)) exts.

End JSString.
Import JSString.

(** ** Requests and responses *)

(** The parsed form of [new URL(request.url)]. *)
Record URL := mkURL {
  origin : string;
  pathname : string;
  search : string
}.

Definition href (u : URL) : string :=
  String.append (origin u) (String.append (pathname u) (search u)).

Record Request := mkRequest {
  method : string;
  url : URL;
  mode : string;
  reqBody : string
}.

Record Response := mkResponse {
  status : Z;
  statusText : string;
  headers : list (string * string);
  body : string
}.

(** [response.ok]: the status is in the range 200-299. *)
Definition ok (r : Response) : bool :=
  (200 <=? status r) && (status r <=? 299).

(** A GET request for a URL, as [fetch(url)] or a page load builds it. *)
Definition GET (mode : string) (u : URL) : Request :=
  mkRequest "GET" u mode "".

(** ** Constants of the worker *)

Definition CACHE_NAME : string := "foodiebot-v1.0.0".
Definition STATIC_CACHE : string := "foodiebot-static-v1".
Definition DYNAMIC_CACHE : string := "foodiebot-dynamic-v1".
Definition API_CACHE : string := "foodiebot-api-v1".

Definition STATIC_ASSETS : list string :=
  [ "/";
    "/index.html";
    "/styles/style.css";
    "/js/main.js";
    "/js/chatbot.js";
    "/js/animations.js";
    "/js/location.js";
    "/js/payment.js";
    "/js/qr-code.js";
    "/js/error-handler.js";
    "/js/performance-optimizer.js";
    "/js/security-manager.js";
    "/config.js";
    "/assets/favicon-32x32.png";
    "/assets/favicon-16x16.png";
    "/assets/apple-touch-icon.png";
    "https://fonts.googleapis.com/css2?family=Poppins:wght@300;400;500;600;700&display=swap";
    "https://cdnjs.cloudflare.com/ajax/libs/font-awesome/6.4.0/css/all.min.css" ].

Definition API_ENDPOINTS : list string :=
  [ "/api/restaurants"; "/api/menu"; "/api/search" ].

Inductive Strategy :=
| CACHE_FIRST
| NETWORK_FIRST
| STALE_WHILE_REVALIDATE
| NETWORK_ONLY
| CACHE_ONLY.

(** ** Classification predicates *)

Definition STATIC_EXTENSIONS : list string :=
  [ "css"; "js"; "png"; "jpg"; "jpeg"; "gif"; "svg"; "woff"; "woff2"; "ttf"; "ico" ].

Definition IMAGE_EXTENSIONS : list string :=
  [ "png"; "jpg"; "jpeg"; "gif"; "svg"; "webp" ].

Definition isStaticAsset (u : URL) : bool :=
  existsb (fun asset => endsWith (pathname u) asset) STATIC_ASSETS
  || matchesExtension STATIC_EXTENSIONS (pathname u).

Definition isAPIRequest (u : URL) : bool :=
  startsWith (pathname u) "/api/"
  || existsb (fun endpoint => startsWith (pathname u) endpoint) API_ENDPOINTS.

Definition isImageRequest (u : URL) : bool :=
  matchesExtension IMAGE_EXTENSIONS (pathname u).

(** The strategy selection of the fetch listener: the default is
    NETWORK_FIRST, overridden by the first test that holds. *)
Definition selectStrategy (u : URL) : Strategy :=
  if isStaticAsset u then CACHE_FIRST
  else if isAPIRequest u then STALE_WHILE_REVALIDATE
  else if isImageRequest u then CACHE_FIRST
  else NETWORK_FIRST.

Definition getCacheName (request : Request) : string :=
  if isStaticAsset (url request) then STATIC_CACHE
  else if isAPIRequest (url request) then API_CACHE
  else DYNAMIC_CACHE.

(** ** The cache storage

    [caches] is an ordered collection of named caches (creation order, which
    is the order [caches.match] and [caches.keys] follow); each cache maps a
    request URL to the response stored for it, and a put replaces the entry
    of its key. The operations are the atomic get, put and delete of the
    storage interface: they do not fail. *)

Abbreviation Cache := (gmap string Response).

Definition CacheStorage : Type := list (string * Cache).

Module Store.

Fixpoint lookupCache (name : string) (cs : CacheStorage) : option Cache :=
  match cs with
  | [] => None
  | (n, c) :: rest => if String.eqb n name then Some c else lookupCache name rest
  end.

(** [caches.open(name)]: the cache is created, empty, when it does not exist. *)
Definition open (name : string) (cs : CacheStorage) : CacheStorage :=
  match lookupCache name cs with
  | Some _ => cs
  | None => (cs ++ [(name, ∅)])%list
  end.

(** [cache.put(key, response)] on the cache called [name]. *)
Fixpoint put (name key : string) (r : Response) (cs : CacheStorage) : CacheStorage :=
  match cs with
  | [] => []
  | (n, c) :: rest =>
      if String.eqb n name then (n, <[key := r]> c) :: rest
      else (n, c) :: put name key r rest
  end.

(** [cache.match(key)] on the cache called [name]. *)
Definition matchIn (name key : string) (cs : CacheStorage) : option Response :=
  match lookupCache name cs with
  | Some c => c !! key
  | None => None
  end.

(** [caches.match(key)]: the first cache, in creation order, with an entry. *)
Fixpoint matchAny (key : string) (cs : CacheStorage) : option Response :=
  match cs with
  | [] => None
  | (_, c) :: rest =>
      match c !! key with
      | Some r => Some r
      | None => matchAny key rest
      end
  end.

(** [caches.keys()] *)
Definition keys (cs : CacheStorage) : list string := List.map fst cs.

(** [caches.delete(name)] *)
Definition delete (name : string) (cs : CacheStorage) : CacheStorage :=
  List.filter (fun nc => negb (String.eqb (fst nc) name)) cs.

End Store.

(** ** The world the worker runs in *)

(** An order kept for later delivery; [orderJSON] is [JSON.stringify(order)]. *)
Record Order := mkOrder {
  orderId : nat;
  orderJSON : string
}.

Record World := mkWorld {
  caches : CacheStorage;        (* the CacheStorage of the origin *)
  fetchLog : list Request;      (* the network fetches issued so far *)
  offlineOrders : list Order    (* the orders queued in IndexedDB *)
}.

(** What the network answers to the [n]-th fetch. *)
Inductive NetResult :=
| NetResponse (r : Response)
| NetError (reason : string).

Definition Network : Type := nat -> Request -> NetResult.

(** ** Asynchronous computations

    A promise, run to completion: it is fulfilled with a value or rejected
    with a reason, and leaves a new world behind. *)

Inductive Settled (A : Type) :=
| Fulfilled (a : A)
| Rejected (reason : string).
Arguments Fulfilled {A} a.
Arguments Rejected {A} reason.

Definition Async (A : Type) : Type := World -> Settled A * World.

Definition resolve {A} (a : A) : Async A := fun w => (Fulfilled a, w).

Definition reject {A} (reason : string) : Async A := fun w => (Rejected reason, w).

(** [await] followed by the rest of the function; a rejection skips it. *)
Definition andThen {A B} (k : A -> Async B) (p : Async A) : Async B :=
  fun w =>
    match p w with
    | (Fulfilled a, w') => k a w'
    | (Rejected e, w') => (Rejected e, w')
    end.

(** [try { p } catch (error) { handler }] and [p.catch(handler)]. *)
Definition tryCatch {A} (p : Async A) (handler : string -> Async A) : Async A :=
  fun w =>
    match p w with
    | (Fulfilled a, w') => (Fulfilled a, w')
    | (Rejected e, w') => handler e w'
    end.

(** A promise that is started and not awaited: its effects take place, its
    outcome reaches nobody. *)
Definition detached {A} (p : Async A) : Async unit :=
  fun w => (Fulfilled tt, snd (p w)).

#[export] Instance Async_ret : MRet Async := @resolve.
#[export] Instance Async_bind : MBind Async := @andThen.

(** The values a strategy can hand to [event.respondWith]. *)
Inductive JSValue :=
| VUndefined
| VResponse (r : Response).

Definition ofOption (o : option Response) : JSValue :=
  match o with
  | Some r => VResponse r
  | None => VUndefined
  end.

(** An operand of [||]: a promise object, or a plain value. *)
Inductive Operand :=
| OPromise (p : Async JSValue)
| OValue (v : JSValue).

(** Every object is truthy, a promise included; [undefined] is falsy. *)
Definition truthy (o : Operand) : bool :=
  match o with
  | OPromise _ => true
  | OValue (VResponse _) => true
  | OValue VUndefined => false
  end.

(** [a || b] *)
Definition jsOr (a b : Operand) : Operand := if truthy a then a else b.

(** [return o] in an async function: a returned promise is adopted. *)
Definition asyncReturn (o : Operand) : Async JSValue :=
  match o with
  | OPromise p => p
  | OValue v => resolve v
  end.

(** ** JSON.stringify on a flat object of strings and booleans

    The strings of the script need no escaping. *)

Inductive JSONField :=
| JString (s : string)
| JBool (b : bool).

Definition stringifyField (f : JSONField) : string :=
  match f with
  | JString s => concat_all [dq; s; dq]
  | JBool true => "true"
  | JBool false => "false"
  end.

Definition stringifyMember (m : string * JSONField) : string :=
  concat_all [dq; fst m; dq; ":"; stringifyField (snd m)].

Fixpoint joinComma (xs : list string) : string :=
  match xs with
  | [] => ""
  | [x] => x
  | x :: rest => concat_all [x; ","; joinComma rest]
  end.

Definition JSON_stringify (obj : list (string * JSONField)) : string :=
  concat_all ["{"; joinComma (List.map stringifyMember obj); "}"].

(** ** Cache and IndexedDB primitives as asynchronous operations *)

Definition withCaches (cs : CacheStorage) (w : World) : World :=
  mkWorld cs (fetchLog w) (offlineOrders w).

(** [caches.open(name)] yields a handle on the cache, here its name. *)
Definition caches_open (name : string) : Async string :=
  fun w => (Fulfilled name, withCaches (Store.open name (caches w)) w).

Definition cache_put (cache key : string) (r : Response) : Async unit :=
  fun w => (Fulfilled tt, withCaches (Store.put cache key r (caches w)) w).

Definition cache_match (cache key : string) : Async JSValue :=
  fun w => (Fulfilled (ofOption (Store.matchIn cache key (caches w))), w).

Definition caches_match (key : string) : Async JSValue :=
  fun w => (Fulfilled (ofOption (Store.matchAny key (caches w))), w).

Definition caches_keys : Async (list string) :=
  fun w => (Fulfilled (Store.keys (caches w)), w).

Definition caches_delete (name : string) : Async unit :=
  fun w => (Fulfilled tt, withCaches (Store.delete name (caches w)) w).

(** The key a request is stored under: its URL. *)
Definition requestKey (request : Request) : string := href (url request).

(** [for (const x of xs) { await body(x) }] *)
Fixpoint forOf {A} (body : A -> Async unit) (xs : list A) : Async unit :=
  match xs with
  | [] => resolve tt
  | x :: rest => _ ← body x; forOf body rest
  end.

(** [Promise.all(xs.map(body))]: every body is started, in order; the result
    is rejected with the first rejection, if any. *)
Fixpoint promiseAllMap {A} (body : A -> Async unit) (xs : list A) : Async unit :=
  match xs with
  | [] => resolve tt
  | x :: rest =>
      fun w =>
        match body x w with
        | (Fulfilled _, w') => promiseAllMap body rest w'
        | (Rejected e, w') => (Rejected e, snd (promiseAllMap body rest w'))
        end
  end.

(** The IndexedDB helpers of the script. *)
Definition getOfflineOrders : Async (list Order) := resolve [].

Definition removeOfflineOrder (orderId : nat) : Async unit := resolve tt.

(** ** The offline placeholders *)

Definition getOfflineImageSVG : string :=
  concat_all
    [ nl;
      "        <svg width="; dq; "200"; dq; " height="; dq; "200"; dq;
      " xmlns="; dq; "http://www.w3.org/2000/svg"; dq; ">"; nl;
      "            <rect width="; dq; "100%"; dq; " height="; dq; "100%"; dq;
      " fill="; dq; "#f0f0f0"; dq; "/>"; nl;
      "            <text x="; dq; "50%"; dq; " y="; dq; "50%"; dq;
      " font-family="; dq; "Arial"; dq; " font-size="; dq; "14"; dq;
      " fill="; dq; "#999"; dq; " text-anchor="; dq; "middle"; dq;
      " dy="; dq; ".3em"; dq; ">"; nl;
      "                Image Unavailable Offline"; nl;
      "            </text>"; nl;
      "        </svg>"; nl;
      "    " ].

Definition offlinePage : Response :=
  mkResponse 200 "" [("Content-Type", "text/html")] "Offline".

Definition offlineEnvelope : list (string * JSONField) :=
  [ ("error", JString "Offline");
    ("message", JString "This feature is not available offline");
    ("offline", JBool true) ].

Definition offlineAPIResponse : Response :=
  mkResponse 200 "" [("Content-Type", "application/json")]
             (JSON_stringify offlineEnvelope).

Definition offlineImageResponse : Response :=
  mkResponse 200 "" [("Content-Type", "image/svg+xml")] getOfflineImageSVG.

Definition offlineDefaultResponse : Response :=
  mkResponse 503 "Service Unavailable" [] "Offline".

(** ** The worker *)

Section Worker.

(** The origin the worker is registered for, against which a relative URL
    such as ['/index.html'] is resolved. *)
Variable selfOrigin : string.

(** The network. *)
Variable net : Network.

Definition resolveURL (path : string) : URL := mkURL selfOrigin path "".

(** [fetch(request)]: the request is logged and the network decides. *)
Definition fetch (request : Request) : Async Response :=
  fun w =>
    let w' := mkWorld (caches w) (fetchLog w ++ [request])%list (offlineOrders w) in
    match net (List.length (fetchLog w)) request with
    | NetResponse r => (Fulfilled r, w')
    | NetError e => (Rejected e, w')
    end.

Definition getOfflineFallback (request : Request) : Async JSValue :=
  if String.eqb (mode request) "navigate" then
    cache ← caches_open STATIC_CACHE;
    asyncReturn
      (jsOr (OPromise (cache_match cache (href (resolveURL "/index.html"))))
            (OValue (VResponse offlinePage)))
  else if isAPIRequest (url request) then
    resolve (VResponse offlineAPIResponse)
  else if isImageRequest (url request) then
    resolve (VResponse offlineImageResponse)
  else
    resolve (VResponse offlineDefaultResponse).

Definition cacheFirst (request : Request) : Async JSValue :=
  tryCatch
    (cachedResponse ← caches_match (requestKey request);
     match cachedResponse with
     | VResponse r => resolve (VResponse r)
     | VUndefined =>
         networkResponse ← fetch request;
         _ ← (if ok networkResponse then
                cache ← caches_open (getCacheName request);
                detached (cache_put cache (requestKey request) networkResponse)
              else resolve tt);
         resolve (VResponse networkResponse)
     end)
    (fun error => getOfflineFallback request).

Definition networkFirst (request : Request) : Async JSValue :=
  tryCatch
    (networkResponse ← fetch request;
     _ ← (if ok networkResponse then
            cache ← caches_open (getCacheName request);
            detached (cache_put cache (requestKey request) networkResponse)
          else resolve tt);
     resolve (VResponse networkResponse))
    (fun error =>
       cachedResponse ← caches_match (requestKey request);
       match cachedResponse with
       | VResponse r => resolve (VResponse r)
       | VUndefined => getOfflineFallback request
       end).

(** The promise [fetch(request).then(...).catch(...)] of
    [staleWhileRevalidate]: the [catch] handler logs and returns nothing,
    so the promise is fulfilled with [undefined] when the fetch fails. *)
Definition networkPromise (cache : string) (request : Request) : Async JSValue :=
  tryCatch
    (networkResponse ← fetch request;
     _ ← (if ok networkResponse then
            detached (cache_put cache (requestKey request) networkResponse)
          else resolve tt);
     resolve (VResponse networkResponse))
    (fun error => resolve VUndefined).

Definition staleWhileRevalidate (request : Request) : Async JSValue :=
  cache ← caches_open (getCacheName request);
  cachedResponse ← cache_match cache (requestKey request);
  match cachedResponse with
  | VResponse r =>
      _ ← detached (networkPromise cache request);
      resolve (VResponse r)
  | VUndefined =>
      tryCatch (networkPromise cache request)
               (fun error => getOfflineFallback request)
  end.

Definition handleRequest (request : Request) (strategy : Strategy) : Async JSValue :=
  match strategy with
  | CACHE_FIRST => cacheFirst request
  | NETWORK_FIRST => networkFirst request
  | STALE_WHILE_REVALIDATE => staleWhileRevalidate request
  | NETWORK_ONLY => r ← fetch request; resolve (VResponse r)
  | CACHE_ONLY => caches_match (requestKey request)
  end.

(** The fetch listener: [None] when it returns without calling
    [event.respondWith], so that the browser handles the request itself. *)
Definition onFetch (request : Request) : option (Async JSValue) :=
  if negb (String.eqb (method request) "GET") then None
  else Some (handleRequest request (selectStrategy (url request))).

(** A fetch event, run to completion. *)
Definition fetchEvent (request : Request) (w : World)
  : option (Settled JSValue) * World :=
  match onFetch request with
  | None => (None, w)
  | Some p => let '(out, w') := p w in (Some out, w')
  end.

(** The activate listener. *)
Definition activate : Async unit :=
  cacheNames ← caches_keys;
  promiseAllMap
    (fun cacheName =>
       if negb (String.eqb cacheName STATIC_CACHE)
          && negb (String.eqb cacheName DYNAMIC_CACHE)
          && negb (String.eqb cacheName API_CACHE)
       then caches_delete cacheName
       else resolve tt)
    cacheNames.

(** The order delivery of background sync. *)
Definition orderRequest (order : Order) : Request :=
  mkRequest "POST" (resolveURL "/api/orders") "cors" (orderJSON order).

Definition syncOfflineOrders : Async unit :=
  offlineOrders ← getOfflineOrders;
  forOf
    (fun order =>
       tryCatch
         (response ← fetch (orderRequest order);
          if ok response then removeOfflineOrder (orderId order)
          else resolve tt)
         (fun error => resolve tt))
    offlineOrders.

End Worker.

(** ** Installation, messages and the rest of background sync *)

(** An analytics event kept for later delivery; [eventJSON] is
    [JSON.stringify(event)]. *)
Record AnalyticsEvent := mkAnalyticsEvent {
  eventId : nat;
  eventJSON : string
}.

Definition getOfflineAnalytics : Async (list AnalyticsEvent) := resolve [].

Definition removeOfflineAnalytics (eventId : nat) : Async unit := resolve tt.

(** A promise awaited for its outcome, whichever it is. *)
Definition settle {A} (p : Async A) : Async (Settled A) :=
  fun w => let '(outcome, w') := p w in (Fulfilled outcome, w').

(** [Promise.all([p, q])] of two promises started in this order: both run;
    the result is rejected when one of them is. *)
Definition promiseAllPair (p q : Async unit) : Async unit :=
  fun w =>
    match p w with
    | (Fulfilled _, w') => q w'
    | (Rejected e, w') => (Rejected e, snd (q w'))
    end.

(** No key occurs twice. *)
Fixpoint distinct (keys : list string) : bool :=
  match keys with
  | [] => true
  | k :: rest => negb (existsb (String.eqb k) rest) && distinct rest
  end.

(** The responses of a batch of fetches, when every one of them is a
    successful response. *)
Fixpoint allSuccessful (outcomes : list (Settled Response)) : option (list Response) :=
  match outcomes with
  | [] => Some []
  | Fulfilled r :: rest =>
      if ok r then
        match allSuccessful rest with
        | Some rs => Some (r :: rs)
        | None => None
        end
      else None
  | Rejected _ :: _ => None
  end.

Fixpoint putAll (cache : string) (entries : list (string * Response)) : Async unit :=
  match entries with
  | [] => resolve tt
  | (key, r) :: rest => _ ← cache_put cache key r; putAll cache rest
  end.

(** A message posted to the worker: its [type] and its [urls]. *)
Record Message := mkMessage {
  msgType : string;
  msgUrls : list string
}.

Section Lifecycle.

Variable selfOrigin : string.

(** [new URL(s, self.location)], the URL a string stands for. *)
Variable toURL : string -> URL.

Variable net : Network.

(** The request [cache.addAll] builds for a URL string. *)
Definition requestFor (u : string) : Request := GET "cors" (toURL u).

(** All the fetches of a batch are issued, in order, whatever their
    outcomes. *)
Fixpoint fetchAll (requests : list Request) : Async (list (Settled Response)) :=
  match requests with
  | [] => resolve []
  | request :: rest =>
      outcome ← settle (fetch net request);
      outcomes ← fetchAll rest;
      resolve (outcome :: outcomes)
  end.

(** [cache.addAll(urls)]: every URL is fetched; unless every fetch gives a
    successful (2xx) response the promise is rejected and nothing is stored;
    two entries for one URL in the batch are refused; otherwise all the
    responses are stored. As for [put], the rules of the platform about
    partial content and [Vary] are left out. *)
Definition cache_addAll (cache : string) (urls : list string) : Async unit :=
  let requests := List.map requestFor urls in
  outcomes ← fetchAll requests;
  match allSuccessful outcomes with
  | None => reject "TypeError"
  | Some responses =>
      if distinct (List.map requestKey requests)
      then putAll cache (combine (List.map requestKey requests) responses)
      else reject "InvalidStateError"
  end.

(** The install listener; [self.skipWaiting()] has no effect on the store. *)
Definition install : Async unit :=
  _ ← promiseAllPair
        (cache ← caches_open STATIC_CACHE; cache_addAll cache STATIC_ASSETS)
        (cache ← caches_open API_CACHE; resolve tt);
  resolve tt.

Definition cacheUrls (urls : list string) : Async unit :=
  cache ← caches_open DYNAMIC_CACHE;
  cache_addAll cache urls.

(** The message listener: whether [self.skipWaiting()] is called, and the
    work handed to [event.waitUntil]. *)
Definition onMessage (data : option Message) : bool * option (Async unit) :=
  match data with
  | None => (false, None)
  | Some m =>
      (String.eqb (msgType m) "SKIP_WAITING",
       if String.eqb (msgType m) "CACHE_URLS" then Some (cacheUrls (msgUrls m))
       else None)
  end.

Definition analyticsRequest (event : AnalyticsEvent) : Request :=
  mkRequest "POST" (resolveURL selfOrigin "/api/analytics/events") "cors"
            (eventJSON event).

Definition syncAnalyticsData : Async unit :=
  offlineAnalytics ← getOfflineAnalytics;
  forOf
    (fun event =>
       tryCatch
         (response ← fetch net (analyticsRequest event);
          if ok response then removeOfflineAnalytics (eventId event)
          else resolve tt)
         (fun error => resolve tt))
    offlineAnalytics.

(** The request of [fetch('/api/restaurants')]. *)
Definition restaurantsRequest : Request :=
  GET "cors" (resolveURL selfOrigin "/api/restaurants").

Definition updateCachedData : Async unit :=
  tryCatch
    (response ← fetch net restaurantsRequest;
     if ok response then
       cache ← caches_open API_CACHE;
       detached (cache_put cache (href (resolveURL selfOrigin "/api/restaurants"))
                           response)
     else resolve tt)
    (fun error => resolve tt).

Definition doBackgroundSync : Async unit :=
  tryCatch
    (_ ← syncOfflineOrders selfOrigin net;
     _ ← syncAnalyticsData;
     _ ← updateCachedData;
     resolve tt)
    (fun error => resolve tt).

(** The sync listener: the work handed to [event.waitUntil], if any. *)
Definition onSync (tag : string) : option (Async unit) :=
  if String.eqb tag "background-sync" then Some doBackgroundSync else None.

End Lifecycle.

(** ** Auxiliary definitions for the statements *)

(** The world once one more fetch has been issued. *)
Definition afterFetch (request : Request) (w : World) : World :=
  mkWorld (caches w) (fetchLog w ++ [request])%list (offlineOrders w).

(** Serving the same request [n] times in a row with one strategy. *)
Fixpoint serveRepeatedly (strategy : Request -> Async JSValue) (n : nat)
    (request : Request) (w : World) : list (Settled JSValue) * World :=
  match n with
  | O => ([], w)
  | S k =>
      let '(out, w') := strategy request w in
      let '(outs, w'') := serveRepeatedly strategy k request w' in
      (out :: outs, w'')
  end.

(** The categories the fallback generator tells apart, in the order in which
    [getOfflineFallback] tests for them. *)
Inductive Category :=
| Navigation
| APICall
| Image
| Other.

Definition fallbackCategory (request : Request) : Category :=
  if String.eqb (mode request) "navigate" then Navigation
  else if isAPIRequest (url request) then APICall
  else if isImageRequest (url request) then Image
  else Other.

(** The caches activation keeps: the three of the current version. *)
Definition isCurrentCache (cacheName : string) : bool :=
  String.eqb cacheName STATIC_CACHE
  || String.eqb cacheName DYNAMIC_CACHE
  || String.eqb cacheName API_CACHE.

(** What activation does with one cache name. *)
Definition purge (cs : CacheStorage) (cacheName : string) : CacheStorage :=
  if isCurrentCache cacheName then cs else Store.delete cacheName cs.

(** The envelope the specification describes, with a lower-case error
    field and some fixed message. *)
Definition specEnvelope (message : string) : list (string * JSONField) :=
  [ ("error", JString "offline");
    ("message", JString message);
    ("offline", JBool true) ].

(** What serving one request can do to the cache storage: nothing, the
    creation of one cache, or one put of a successful response under the
    request's key in the request's partition. *)
Inductive StoreEffect (request : Request) (cs : CacheStorage) : CacheStorage -> Prop :=
| effect_none : StoreEffect request cs cs
| effect_open (name : string) : StoreEffect request cs (Store.open name cs)
| effect_put (r : Response) :
    ok r = true ->
    StoreEffect request cs
      (Store.put (getCacheName request) (requestKey request) r
                 (Store.open (getCacheName request) cs)).

(** Every entry of every cache is a successful (2xx) response. *)
Definition allStoredOk (cs : CacheStorage) : Prop :=
  forall name c key r, In (name, c) cs -> c !! key = Some r -> ok r = true.

(** The strategies the fetch listener selects among. *)
Definition selectable (strategy : Strategy) : bool :=
  match strategy with
  | CACHE_FIRST | NETWORK_FIRST | STALE_WHILE_REVALIDATE => true
  | NETWORK_ONLY | CACHE_ONLY => false
  end.

(** An outcome of serving [request] from the world [w]: a value, at most one
    fetch, of the request itself, one [StoreEffect], the queue untouched. *)
Definition Served (request : Request) (w : World)
    (outcome : Settled JSValue * World) : Prop :=
  exists v w',
    outcome = (Fulfilled v, w')
    /\ StoreEffect request (caches w) (caches w')
    /\ (fetchLog w' = fetchLog w \/ fetchLog w' = (fetchLog w ++ [request])%list)
    /\ offlineOrders w' = offlineOrders w.

(** The key a URL string is stored under by [cache.addAll]. *)
Definition urlKey (toURL : string -> URL) (u : string) : string :=
  requestKey (requestFor toURL u).

(** The outcomes of a batch of fetches of which the first is the [n]-th
    fetch overall. *)
Fixpoint answers (net : Network) (n : nat) (requests : list Request)
    : list (Settled Response) :=
  match requests with
  | [] => []
  | request :: rest =>
      match net n request with
      | NetResponse r => Fulfilled r
      | NetError e => Rejected e
      end :: answers net (S n) rest
  end.

(** The world once a batch of fetches has been issued. *)
Definition afterFetches (requests : list Request) (w : World) : World :=
  mkWorld (caches w) (fetchLog w ++ requests)%list (offlineOrders w).

(** A batch of puts into one cache. *)
Definition putEntries (cache : string) (entries : list (string * Response))
    (cs : CacheStorage) : CacheStorage :=
  fold_left (fun cs entry => Store.put cache (fst entry) (snd entry) cs) entries cs.

(** The network never gives a successful response to [request]. *)
Definition neverSucceeds (net : Network) (request : Request) : Prop :=
  forall n,
    match net n request with
    | NetResponse r => ok r = false
    | NetError _ => True
    end.

(** ** Sample data used by the examples *)

Definition sampleOrigin : string := "https://foodiebot.app".

Definition netDown : Network := fun _ _ => NetError "Failed to fetch".

Definition netAnswers (r : Response) : Network := fun _ _ => NetResponse r.

Definition emptyWorld : World := mkWorld [] [] [].

Definition apiRequest : Request :=
  GET "cors" (mkURL sampleOrigin "/api/restaurants" "").

Definition pageRequest : Request :=
  GET "navigate" (mkURL sampleOrigin "/orders" "").

Definition webpRequest : Request :=
  GET "no-cors" (mkURL sampleOrigin "/photos/dosa.webp" "").

Definition payloadP : Response := mkResponse 200 "OK" [] "P".

Definition payloadQ : Response := mkResponse 200 "OK" [] "Q".

Definition notFound : Response := mkResponse 404 "Not Found" [] "missing".

Definition ordersPage : Request :=
  GET "cors" (mkURL sampleOrigin "/orders" "").

Definition imageRequest : Request :=
  GET "no-cors" (mkURL sampleOrigin "/images/x.png" "").

Definition apiImageRequest : Request :=
  GET "no-cors" (mkURL sampleOrigin "/api/pic.png" "").

Definition postRequest : Request :=
  mkRequest "POST" (mkURL sampleOrigin "/api/orders" "") "cors" "{}".

(** A world in which the dynamic partition holds [payloadP] for [ordersPage]. *)
Definition dynamicWorld : World :=
  mkWorld [ (STATIC_CACHE, ∅);
            (DYNAMIC_CACHE, {[ requestKey ordersPage := payloadP ]}) ] [] [].

(** Three queued orders, and a network that accepts the first two and is
    unreachable for the third. *)
Definition orderA : Order := mkOrder 1 (JSON_stringify [("item", JString "dosa")]).
Definition orderB : Order := mkOrder 2 (JSON_stringify [("item", JString "idli")]).
Definition orderC : Order := mkOrder 3 (JSON_stringify [("item", JString "vada")]).

Definition netOrders : Network :=
  fun _ request =>
    if String.eqb (reqBody request) (orderJSON orderC)
    then NetError "Failed to fetch"
    else NetResponse (mkResponse 201 "Created" [] "").

Definition queuedWorld : World := mkWorld [] [] [orderA; orderB; orderC].

(** The stored partitions of the activation example. *)
Definition generations : CacheStorage :=
  [ (STATIC_CACHE, {[ requestKey ordersPage := payloadP ]});
    (DYNAMIC_CACHE, {[ requestKey webpRequest := payloadQ ]});
    (API_CACHE, {[ requestKey apiRequest := payloadP ]});
    ("foodiebot-static-v0", {[ requestKey ordersPage := payloadQ ]}) ].

(** A world in which the API partition holds [payloadP] for [apiRequest]. *)
Definition warmWorld : World :=
  mkWorld [ (STATIC_CACHE, ∅);
            (API_CACHE, {[ requestKey apiRequest := payloadP ]}) ] [] [].

(** A URL parser for the examples: a root-relative path is resolved against
    [sampleOrigin]; an absolute URL is split after its host; the query, from
    the question mark on, is the search part. *)
Definition splitSearch (origin rest : string) : URL :=
  match String.index 0 "?" rest with
  | Some i =>
      mkURL origin (String.substring 0 i rest)
            (String.substring i (String.length rest - i) rest)
  | None => mkURL origin rest ""
  end.

Definition sampleToURL (s : string) : URL :=
  if startsWith s "/" then splitSearch sampleOrigin s
  else
    match String.index 0 "://" s with
    | Some i =>
        match String.index (i + 3) "/" s with
        | Some j =>
            splitSearch (String.substring 0 j s)
                        (String.substring j (String.length s - j) s)
        | None => mkURL s "/" ""
        end
    | None => splitSearch sampleOrigin (String.append "/" s)
    end.

(** A network that answers the first fetch and is down from then on. *)
Definition netOnceThenDown (r : Response) : Network :=
  fun n _ => match n with
             | O => NetResponse r
             | S _ => NetError "Failed to fetch"
             end.

(** A network that is down for one path and answers every other request. *)
Definition netWithout (path : string) (r : Response) : Network :=
  fun _ request =>
    if String.eqb (pathname (url request)) path then NetError "Failed to fetch"
    else NetResponse r.

(** A world whose only cache is of an older generation. *)
Definition oldGenerationWorld : World :=
  mkWorld [ ("foodiebot-static-v0", {[ requestKey ordersPage := payloadQ ]}) ] [] [].

(** A world in which the static cache, created first, holds a copy of a page
    that belongs to the dynamic partition. *)
Definition shadowWorld : World :=
  mkWorld [ (STATIC_CACHE, {[ requestKey ordersPage := payloadP ]}) ] [] [].

Definition trailingSlashRequest : Request :=
  GET "cors" (mkURL sampleOrigin "/api/restaurants/" "").

Definition prewarmList : list string := [ "/orders"; "/menu?day=today" ].

(** ** First checks on concrete inputs *)

Example endsWith_css : endsWith "/styles/style.css" ".css" = true.
Proof. reflexivity. Qed.

Example endsWith_longer : endsWith "css" "/styles/style.css" = false.
Proof. reflexivity. Qed.

Example strategy_webp :
  selectStrategy (mkURL "https://foodiebot.app" "/photos/dosa.webp" "") = CACHE_FIRST.
Proof. reflexivity. Qed.

Example strategy_page :
  selectStrategy (mkURL "https://foodiebot.app" "/orders" "") = NETWORK_FIRST.
Proof. reflexivity. Qed.

(** ** Facts about the string primitives *)

Section StringFacts.

Implicit Types (s t p : string).

Lemma append_cons (a : ascii) p t :
  String.append (String a p) t = String a (String.append p t).
Proof. reflexivity. Qed.

Lemma substring_all t : String.substring 0 (String.length t) t = t.
Proof.
  induction t as [|a t IH]; [done|].
  cbn [String.length String.substring]. by rewrite IH.
Qed.

Lemma substring_skip p t (n : nat) :
  String.substring (String.length p) n (String.append p t) = String.substring 0 n t.
Proof.
  induction p as [|a p IH]; [done|].
  rewrite append_cons. cbn [String.length String.substring]. exact IH.
Qed.

Lemma length_append p t :
  String.length (String.append p t) = (String.length p + String.length t)%nat.
Proof.
  induction p as [|a p IH]; [done|].
  rewrite append_cons. cbn [String.length Nat.add]. by rewrite IH.
Qed.

Lemma substring_split s (k : nat) :
  (k <= String.length s)%nat ->
  s = String.append (String.substring 0 k s)
                    (String.substring k (String.length s - k) s).
Proof.
  revert k. induction s as [|a s IH]; intros k Hk; cbn [String.length] in *.
  - destruct k; [done|lia].
  - destruct k as [|k]; cbn [String.substring Nat.sub].
    + change (String.append "" ?x) with x. by rewrite substring_all.
    + rewrite append_cons. f_equal. apply IH. lia.
Qed.

(** [endsWith] is the suffix relation. *)
Lemma endsWith_suffix s t :
  endsWith s t = true <-> exists p, s = String.append p t.
Proof.
  unfold endsWith. split.
  - intros H. apply andb_true_iff in H as [Hlen Heq].
    apply Nat.leb_le in Hlen. apply String.eqb_eq in Heq.
    exists (String.substring 0 (String.length s - String.length t) s).
    pose proof (substring_split s (String.length s - String.length t)) as Hs.
    replace (String.length s - (String.length s - String.length t))%nat
      with (String.length t) in Hs by lia.
    rewrite Heq in Hs. apply Hs. lia.
  - intros [p ->]. rewrite length_append. apply andb_true_iff. split.
    + apply Nat.leb_le. lia.
    + replace (String.length p + String.length t - String.length t)%nat
        with (String.length p) by lia.
      rewrite substring_skip, substring_all. apply String.eqb_refl.
Qed.

(** Of two suffixes of one string, the shorter is a suffix of the longer. *)
Lemma suffixes_nest p1 p2 a b :
  String.append p1 a = String.append p2 b ->
  (String.length b <= String.length a)%nat ->
  exists q, a = String.append q b.
Proof.
  revert p2. induction p1 as [|c p1 IH]; intros p2 H Hlen.
  - exists p2. exact H.
  - destruct p2 as [|c' p2].
    + change (String.append "" b) with b in H.
      apply (f_equal String.length) in H.
      rewrite append_cons in H. cbn [String.length] in H.
      rewrite length_append in H. lia.
    + rewrite !append_cons in H. injection H as _ H. by apply IH with p2.
Qed.

Lemma endsWith_exclusive s a b :
  endsWith s a = true ->
  endsWith a b = false ->
  endsWith b a = false ->
  endsWith s b = false.
Proof.
  intros Ha Hab Hba. destruct (endsWith s b) eqn:Hb; [|done].
  apply endsWith_suffix in Ha as [p1 H1]. apply endsWith_suffix in Hb as [p2 H2].
  destruct (Nat.le_gt_cases (String.length b) (String.length a)) as [Hle|Hgt].
  - destruct (suffixes_nest p1 p2 a b) as [q Hq]; [congruence|done|].
    assert (endsWith a b = true) by (apply endsWith_suffix; eauto). congruence.
  - destruct (suffixes_nest p2 p1 b a) as [q Hq]; [congruence|lia|].
    assert (endsWith b a = true) by (apply endsWith_suffix; eauto). congruence.
Qed.

Lemma endsWith_none s a (patterns : list string) :
  endsWith s a = true ->
  forallb (fun t => negb (endsWith a t) && negb (endsWith t a)) patterns = true ->
  existsb (fun t => endsWith s t) patterns = false.
Proof.
  intros Ha. induction patterns as [|t rest IH]; cbn [forallb existsb]; [done|].
  intros H. apply andb_true_iff in H as [Ht Hrest].
  apply andb_true_iff in Ht as [H1 H2].
  apply negb_true_iff in H1, H2.
  by rewrite (endsWith_exclusive s a t Ha H1 H2), IH.
Qed.

Lemma existsb_through_map {A B} (f : B -> bool) (g : A -> B) (l : list A) :
  existsb f (List.map g l) = existsb (fun x => f (g x)) l.
Proof. induction l as [|x l IH]; cbn; [done|]. by rewrite IH. Qed.

(** A path that ends in [.webp] is never a static asset. *)
Lemma webp_never_static (u : URL) :
  endsWith (pathname u) ".webp" = true -> isStaticAsset u = false.
Proof.
  intros H. unfold isStaticAsset, matchesExtension. apply orb_false_iff. split.
  - apply endsWith_none with ".webp"; [exact H|reflexivity].
  - rewrite <- (existsb_through_map (fun t => endsWith (pathname u) t)
                                    (fun e => String.append "." e)).
    apply endsWith_none with ".webp"; [exact H|reflexivity].
Qed.

End StringFacts.

(** ** Facts about the cache storage *)

Ltac run :=
  unfold mbind, Async_bind, andThen, tryCatch, detached, resolve, reject,
    caches_open, cache_put, cache_match, caches_match, caches_keys,
    caches_delete, withCaches, ofOption in *; cbn [fst snd caches fetchLog offlineOrders] in *.

Section StoreFacts.

Implicit Types (cs : CacheStorage) (name key : string) (r : Response).

Lemma lookupCache_app_miss name cs extra :
  Store.lookupCache name cs = None ->
  Store.lookupCache name (cs ++ extra)%list = Store.lookupCache name extra.
Proof.
  induction cs as [|[n c] rest IH]; cbn; [done|].
  destruct (String.eqb n name); [done|]. apply IH.
Qed.

Lemma lookupCache_open name cs :
  exists c, Store.lookupCache name (Store.open name cs) = Some c.
Proof.
  unfold Store.open. destruct (Store.lookupCache name cs) as [c|] eqn:E.
  - exists c. exact E.
  - exists ∅. rewrite lookupCache_app_miss by exact E.
    cbn. by rewrite String.eqb_refl.
Qed.

Lemma open_present name cs c :
  Store.lookupCache name cs = Some c -> Store.open name cs = cs.
Proof. intros E. unfold Store.open. by rewrite E. Qed.

Lemma matchIn_open_present name key cs r :
  Store.matchIn name key cs = Some r -> Store.open name cs = cs.
Proof.
  unfold Store.matchIn. destruct (Store.lookupCache name cs) as [c|] eqn:E; [|done].
  intros _. by apply open_present with c.
Qed.

Lemma matchIn_put name key cs r c :
  Store.lookupCache name cs = Some c ->
  Store.matchIn name key (Store.put name key r cs) = Some r.
Proof.
  unfold Store.matchIn. induction cs as [|[n c'] rest IH]; cbn; [done|].
  destruct (String.eqb n name) eqn:E; cbn; rewrite E.
  - intros _. apply lookup_insert_eq.
  - apply IH.
Qed.

(** A put touches one cache only. *)
Lemma lookupCache_put_other name other key cs r :
  other <> name ->
  Store.lookupCache other (Store.put name key r cs) = Store.lookupCache other cs.
Proof.
  intros Hne. induction cs as [|[n c] rest IH]; cbn; [done|].
  destruct (String.eqb n name) eqn:E; cbn.
  - apply String.eqb_eq in E. subst n.
    destruct (String.eqb name other) eqn:E'; [|done].
    apply String.eqb_eq in E'. congruence.
  - by rewrite IH.
Qed.

(** A put touches one key only. *)
Lemma matchIn_put_other_key name key key' cs r :
  key' <> key ->
  Store.matchIn name key' (Store.put name key r cs) = Store.matchIn name key' cs.
Proof.
  intros Hne. unfold Store.matchIn.
  induction cs as [|[n c] rest IH]; cbn; [done|].
  destruct (String.eqb n name) eqn:E; cbn; rewrite E; [|apply IH].
  by rewrite lookup_insert_ne.
Qed.

Lemma matchAny_app key cs extra :
  Store.matchAny key cs = None ->
  Store.matchAny key (cs ++ extra)%list = Store.matchAny key extra.
Proof.
  induction cs as [|[n c] rest IH]; cbn; [done|].
  destruct (c !! key); [done|]. apply IH.
Qed.

Lemma matchAny_open_miss key name cs :
  Store.matchAny key cs = None -> Store.matchAny key (Store.open name cs) = None.
Proof.
  intros H. unfold Store.open. destruct (Store.lookupCache name cs); [done|].
  rewrite matchAny_app by done. cbn. by rewrite lookup_empty.
Qed.

(** After a miss everywhere, the entry just put is the one [caches.match]
    finds. *)
Lemma matchAny_put_miss key name cs r c :
  Store.matchAny key cs = None ->
  Store.lookupCache name cs = Some c ->
  Store.matchAny key (Store.put name key r cs) = Some r.
Proof.
  induction cs as [|[n c'] rest IH]; cbn; [done|].
  destruct (c' !! key) eqn:Ek; [done|].
  destruct (String.eqb n name) eqn:E; cbn.
  - intros _ _. by rewrite lookup_insert_eq.
  - rewrite Ek. apply IH.
Qed.

Lemma matchAny_put_open key name cs r :
  Store.matchAny key cs = None ->
  Store.matchAny key (Store.put name key r (Store.open name cs)) = Some r.
Proof.
  intros H. destruct (lookupCache_open name cs) as [c Hc].
  eapply matchAny_put_miss; [|exact Hc]. by apply matchAny_open_miss.
Qed.

End StoreFacts.

(** ** The caching strategies *)

Section Strategies.

Variable selfOrigin : string.
Variable net : Network.

Implicit Types (request : Request) (w : World) (r : Response).

Lemma fetch_response request w r :
  net (List.length (fetchLog w)) request = NetResponse r ->
  fetch net request w = (Fulfilled r, afterFetch request w).
Proof. intros H. unfold fetch. by rewrite H. Qed.

Lemma fetch_error request w e :
  net (List.length (fetchLog w)) request = NetError e ->
  fetch net request w = (Rejected e, afterFetch request w).
Proof. intros H. unfold fetch. by rewrite H. Qed.

(** The promise chain of stale-while-revalidate is never rejected: a failed
    fetch fulfils it with [undefined]. *)
Lemma networkPromise_error cache request w e :
  net (List.length (fetchLog w)) request = NetError e ->
  networkPromise net cache request w = (Fulfilled VUndefined, afterFetch request w).
Proof.
  intros H. unfold networkPromise. run. by rewrite (fetch_error _ _ _ H).
Qed.

Lemma networkPromise_response cache request w r :
  net (List.length (fetchLog w)) request = NetResponse r ->
  networkPromise net cache request w =
    (Fulfilled (VResponse r),
     if ok r
     then withCaches (Store.put cache (requestKey request) r (caches w))
                     (afterFetch request w)
     else afterFetch request w).
Proof.
  intros H. unfold networkPromise. run. rewrite (fetch_response _ _ _ H).
  by destruct (ok r).
Qed.

(** With no stored entry and a failing network, stale-while-revalidate
    answers [undefined]: its [try] block never sees a rejection. *)
Lemma staleWhileRevalidate_miss_error request w e :
  Store.matchIn (getCacheName request) (requestKey request) (caches w) = None ->
  net (List.length (fetchLog w)) request = NetError e ->
  fst (staleWhileRevalidate selfOrigin net request w) = Fulfilled VUndefined.
Proof.
  intros Hmiss Hnet. unfold staleWhileRevalidate. run.
  assert (Hm : Store.matchIn (getCacheName request) (requestKey request)
                 (Store.open (getCacheName request) (caches w)) = None).
  { unfold Store.matchIn, Store.open in *.
    destruct (Store.lookupCache (getCacheName request) (caches w)) eqn:E.
    - by rewrite E.
    - rewrite lookupCache_app_miss by done. cbn.
      rewrite String.eqb_refl. apply lookup_empty. }
  rewrite Hm. run.
  rewrite networkPromise_error with (e := e); [done|exact Hnet].
Qed.

Lemma cacheFirst_hit request w stored :
  Store.matchAny (requestKey request) (caches w) = Some stored ->
  cacheFirst selfOrigin net request w = (Fulfilled (VResponse stored), w).
Proof. intros H. unfold cacheFirst. run. by rewrite H. Qed.

Lemma cacheFirst_miss_response request w fresh :
  Store.matchAny (requestKey request) (caches w) = None ->
  net (List.length (fetchLog w)) request = NetResponse fresh ->
  cacheFirst selfOrigin net request w
  = (Fulfilled (VResponse fresh),
     if ok fresh
     then withCaches
            (Store.put (getCacheName request) (requestKey request) fresh
                       (Store.open (getCacheName request) (caches w)))
            (afterFetch request w)
     else afterFetch request w).
Proof.
  intros H Hnet. unfold cacheFirst. run. rewrite H.
  rewrite (fetch_response _ _ _ Hnet). by destruct (ok fresh).
Qed.

End Strategies.

Section StrategyClaims.

Variable selfOrigin : string.
Variable net : Network.

Implicit Types (request : Request) (w : World) (r : Response).

(** C2. Stale-while-revalidate with a stored entry in its partition: the
    caller gets exactly the stored entry, one network fetch is issued in
    the background, a successful (2xx) answer overwrites the entry for the
    key, and any other answer or a failure leaves the store as it was and
    reaches nobody. *)
Theorem staleWhileRevalidate_hit request w stored :
  Store.matchIn (getCacheName request) (requestKey request) (caches w) = Some stored ->
  fst (staleWhileRevalidate selfOrigin net request w) = Fulfilled (VResponse stored)
  /\ fetchLog (snd (staleWhileRevalidate selfOrigin net request w))
     = (fetchLog w ++ [request])%list
  /\ match net (List.length (fetchLog w)) request with
     | NetResponse fresh =>
         if ok fresh
         then caches (snd (staleWhileRevalidate selfOrigin net request w))
              = Store.put (getCacheName request) (requestKey request) fresh (caches w)
              /\ Store.matchIn (getCacheName request) (requestKey request)
                   (caches (snd (staleWhileRevalidate selfOrigin net request w)))
                 = Some fresh
         else caches (snd (staleWhileRevalidate selfOrigin net request w)) = caches w
     | NetError _ =>
         caches (snd (staleWhileRevalidate selfOrigin net request w)) = caches w
     end.
Proof.
  intros Hhit. unfold staleWhileRevalidate. run.
  rewrite (matchIn_open_present _ _ _ _ Hhit), Hhit.
  assert (Hw : withCaches (caches w) w = w) by (by destruct w).
  unfold withCaches in Hw. rewrite Hw. run.
  destruct (net (List.length (fetchLog w)) request) as [fresh|e] eqn:Hnet.
  - rewrite (networkPromise_response net _ _ _ _ Hnet).
    destruct (ok fresh); cbn; [|done].
    split_and!; try done.
    unfold Store.matchIn in Hhit.
    destruct (Store.lookupCache (getCacheName request) (caches w)) as [c|] eqn:E; [|done].
    by eapply matchIn_put.
  - by rewrite (networkPromise_error net _ _ _ _ Hnet).
Qed.

(** C5. Cache-first: a stored entry is returned with no fetch and no other
    effect; on a miss the network answer is returned, and is written to the
    request's partition exactly when it is 2xx; on a miss with a failing
    network the fallback's result is returned; and once a 2xx answer has
    been stored, any number of repeated requests is served from the store
    with no further fetch. *)
Theorem cacheFirst_protocol request w :
  (forall stored,
      Store.matchAny (requestKey request) (caches w) = Some stored ->
      cacheFirst selfOrigin net request w = (Fulfilled (VResponse stored), w))
  /\ (forall fresh,
      Store.matchAny (requestKey request) (caches w) = None ->
      net (List.length (fetchLog w)) request = NetResponse fresh ->
      cacheFirst selfOrigin net request w
      = (Fulfilled (VResponse fresh),
         if ok fresh
         then withCaches
                (Store.put (getCacheName request) (requestKey request) fresh
                           (Store.open (getCacheName request) (caches w)))
                (afterFetch request w)
         else afterFetch request w))
  /\ (forall e,
      Store.matchAny (requestKey request) (caches w) = None ->
      net (List.length (fetchLog w)) request = NetError e ->
      cacheFirst selfOrigin net request w
      = getOfflineFallback selfOrigin request (afterFetch request w))
  /\ (forall fresh n,
      Store.matchAny (requestKey request) (caches w) = None ->
      net (List.length (fetchLog w)) request = NetResponse fresh ->
      ok fresh = true ->
      serveRepeatedly (cacheFirst selfOrigin net) n request
                      (snd (cacheFirst selfOrigin net request w))
      = (repeat (Fulfilled (VResponse fresh)) n,
         snd (cacheFirst selfOrigin net request w))
      /\ fetchLog (snd (cacheFirst selfOrigin net request w))
         = (fetchLog w ++ [request])%list).
Proof.
  pose proof (cacheFirst_hit selfOrigin net request) as Hhit.
  pose proof (cacheFirst_miss_response selfOrigin net request w) as Hmiss.
  split_and!.
  - apply Hhit.
  - apply Hmiss.
  - intros e H Hnet. unfold cacheFirst. run. rewrite H.
    by rewrite (fetch_error net _ _ _ Hnet).
  - intros fresh n H Hnet Hok. rewrite (Hmiss fresh H Hnet), Hok. cbn [snd].
    split; [|done].
    set (w' := withCaches _ _).
    assert (Hstored : Store.matchAny (requestKey request) (caches w') = Some fresh).
    { subst w'. cbn. by apply matchAny_put_open. }
    clearbody w'. induction n as [|n IH]; cbn; [done|].
    by rewrite (Hhit w' fresh Hstored), IH.
Qed.

(** C3 (amended). Network-first returns whatever response the network
    gives, of any status, and writes it to the request's partition exactly
    when it is 2xx; only a rejected fetch makes it fall back, to the stored
    entry when there is one and to the fallback generator otherwise. *)
Theorem networkFirst_protocol request w :
  (forall r,
      net (List.length (fetchLog w)) request = NetResponse r ->
      networkFirst selfOrigin net request w
      = (Fulfilled (VResponse r),
         if ok r
         then withCaches
                (Store.put (getCacheName request) (requestKey request) r
                           (Store.open (getCacheName request) (caches w)))
                (afterFetch request w)
         else afterFetch request w))
  /\ (forall e stored,
      net (List.length (fetchLog w)) request = NetError e ->
      Store.matchAny (requestKey request) (caches w) = Some stored ->
      networkFirst selfOrigin net request w
      = (Fulfilled (VResponse stored), afterFetch request w))
  /\ (forall e,
      net (List.length (fetchLog w)) request = NetError e ->
      Store.matchAny (requestKey request) (caches w) = None ->
      networkFirst selfOrigin net request w
      = getOfflineFallback selfOrigin request (afterFetch request w)).
Proof.
  split_and!.
  - intros r Hnet. unfold networkFirst. run.
    rewrite (fetch_response net _ _ _ Hnet). by destruct (ok r).
  - intros e stored Hnet H. unfold networkFirst. run.
    rewrite (fetch_error net _ _ _ Hnet). cbn. by rewrite H.
  - intros e Hnet H. unfold networkFirst. run.
    rewrite (fetch_error net _ _ _ Hnet). cbn. by rewrite H.
Qed.

End StrategyClaims.

(** ** The fallback generator *)

Section Fallback.

Variable selfOrigin : string.

Implicit Types (request : Request) (w : World).

(** For a navigation the generator opens the static cache and returns the
    promise of [cache.match('/index.html')]: the promise is an object, so
    the [||] never reaches the offline page. *)
Lemma getOfflineFallback_navigate request w :
  mode request = "navigate" ->
  getOfflineFallback selfOrigin request w
  = (Fulfilled
       (ofOption (Store.matchIn STATIC_CACHE
                    (href (resolveURL selfOrigin "/index.html"))
                    (Store.open STATIC_CACHE (caches w)))),
     withCaches (Store.open STATIC_CACHE (caches w)) w).
Proof. intros H. unfold getOfflineFallback. rewrite H. reflexivity. Qed.

Lemma getOfflineFallback_by_category request w :
  getOfflineFallback selfOrigin request w
  = match fallbackCategory request with
    | Navigation =>
        (Fulfilled
           (ofOption (Store.matchIn STATIC_CACHE
                        (href (resolveURL selfOrigin "/index.html"))
                        (Store.open STATIC_CACHE (caches w)))),
         withCaches (Store.open STATIC_CACHE (caches w)) w)
    | APICall => (Fulfilled (VResponse offlineAPIResponse), w)
    | Image => (Fulfilled (VResponse offlineImageResponse), w)
    | Other => (Fulfilled (VResponse offlineDefaultResponse), w)
    end.
Proof.
  unfold getOfflineFallback, fallbackCategory.
  destruct (String.eqb (mode request) "navigate"); [reflexivity|].
  destruct (isAPIRequest (url request)); [reflexivity|].
  destruct (isImageRequest (url request)); reflexivity.
Qed.

(** C9 (amended). The generator is deterministic per category, the
    category being decided in the generator's own order (navigation mode,
    then API path, then image extension, then the rest) and, for a
    navigation, in the same store: every non-navigation request with an
    API path gets the envelope whose error field is "Offline", with status
    200, and every non-navigation, non-API request with an image extension
    gets the same placeholder. *)
Theorem getOfflineFallback_deterministic :
  (forall request1 request2 w,
      fallbackCategory request1 = fallbackCategory request2 ->
      getOfflineFallback selfOrigin request1 w
      = getOfflineFallback selfOrigin request2 w)
  /\ (forall request w,
      fallbackCategory request = APICall ->
      getOfflineFallback selfOrigin request w
      = (Fulfilled (VResponse offlineAPIResponse), w))
  /\ (forall request w,
      fallbackCategory request = Image ->
      getOfflineFallback selfOrigin request w
      = (Fulfilled (VResponse offlineImageResponse), w))
  /\ status offlineAPIResponse = 200
  /\ body offlineAPIResponse
     = concat_all
         [ "{"; dq; "error"; dq; ":"; dq; "Offline"; dq; ",";
           dq; "message"; dq; ":"; dq; "This feature is not available offline"; dq; ",";
           dq; "offline"; dq; ":true}" ]
  /\ body offlineImageResponse = getOfflineImageSVG.
Proof.
  split_and!.
  - intros request1 request2 w H.
    by rewrite !getOfflineFallback_by_category, H.
  - intros request w H. by rewrite getOfflineFallback_by_category, H.
  - intros request w H. by rewrite getOfflineFallback_by_category, H.
  - reflexivity.
  - reflexivity.
  - reflexivity.
Qed.

End Fallback.

(** ** Classification *)

Section Classification.

Variable selfOrigin : string.
Variable net : Network.

(** C6. The strategy is a function of the URL decided by the first rule
    that holds (static asset, then API, then image, else network-first),
    and a request whose method is not GET is not answered by the worker:
    no strategy runs and the world, store included, is left as it was. *)
Theorem classification_first_match (request : Request) :
  (method request <> "GET" ->
   onFetch selfOrigin net request = None
   /\ forall w, fetchEvent selfOrigin net request w = (None, w))
  /\ (method request = "GET" ->
      onFetch selfOrigin net request
      = Some (handleRequest selfOrigin net request (selectStrategy (url request))))
  /\ (isStaticAsset (url request) = true ->
      selectStrategy (url request) = CACHE_FIRST)
  /\ (isStaticAsset (url request) = false ->
      isAPIRequest (url request) = true ->
      selectStrategy (url request) = STALE_WHILE_REVALIDATE)
  /\ (isStaticAsset (url request) = false ->
      isAPIRequest (url request) = false ->
      isImageRequest (url request) = true ->
      selectStrategy (url request) = CACHE_FIRST)
  /\ (isStaticAsset (url request) = false ->
      isAPIRequest (url request) = false ->
      isImageRequest (url request) = false ->
      selectStrategy (url request) = NETWORK_FIRST).
Proof.
  split_and!.
  - intros Hm.
    assert (E : String.eqb (method request) "GET" = false)
      by (by apply String.eqb_neq).
    assert (Hn : onFetch selfOrigin net request = None)
      by (unfold onFetch; by rewrite E).
    split; [exact Hn|]. intros w. unfold fetchEvent. by rewrite Hn.
  - intros Hm. unfold onFetch. rewrite Hm. reflexivity.
  - intros Hs. unfold selectStrategy. by rewrite Hs.
  - intros Hs Ha. unfold selectStrategy. by rewrite Hs, Ha.
  - intros Hs Ha Hi. unfold selectStrategy. by rewrite Hs, Ha, Hi.
  - intros Hs Ha Hi. unfold selectStrategy. by rewrite Hs, Ha, Hi.
Qed.

Lemma lookupCache_open_other name other (cs : CacheStorage) :
  other <> name ->
  Store.lookupCache other (Store.open name cs) = Store.lookupCache other cs.
Proof.
  intros Hne. unfold Store.open.
  destruct (Store.lookupCache name cs); [done|].
  induction cs as [|[n c] rest IH]; cbn.
  - destruct (String.eqb name other) eqn:E; [|done].
    apply String.eqb_eq in E. congruence.
  - destruct (String.eqb n other); [done|]. apply IH.
Qed.

Lemma webp_is_image (u : URL) :
  endsWith (pathname u) ".webp" = true -> isImageRequest u = true.
Proof.
  intros H. unfold isImageRequest, matchesExtension.
  apply existsb_exists. exists "webp". split; [|exact H].
  unfold IMAGE_EXTENSIONS. cbn. tauto.
Qed.

(** C10. A GET request whose path ends in [.webp] and is neither a static
    asset nor an API path is served cache-first through the image rule,
    while its partition is the dynamic one: a 2xx answer fetched on a miss
    is stored there, no other cache changes, and the next request for it
    is answered with that entry. *)
Theorem webp_cache_first_in_dynamic (request : Request) (w : World) (fresh : Response) :
  method request = "GET" ->
  endsWith (pathname (url request)) ".webp" = true ->
  isStaticAsset (url request) = false ->
  isAPIRequest (url request) = false ->
  onFetch selfOrigin net request = Some (cacheFirst selfOrigin net request)
  /\ selectStrategy (url request) = CACHE_FIRST
  /\ getCacheName request = DYNAMIC_CACHE
  /\ (Store.matchAny (requestKey request) (caches w) = None ->
      net (List.length (fetchLog w)) request = NetResponse fresh ->
      ok fresh = true ->
      Store.matchIn DYNAMIC_CACHE (requestKey request)
        (caches (snd (cacheFirst selfOrigin net request w))) = Some fresh
      /\ (forall other,
             other <> DYNAMIC_CACHE ->
             Store.lookupCache other (caches (snd (cacheFirst selfOrigin net request w)))
             = Store.lookupCache other (caches w))
      /\ cacheFirst selfOrigin net request
           (snd (cacheFirst selfOrigin net request w))
         = (Fulfilled (VResponse fresh), snd (cacheFirst selfOrigin net request w))).
Proof.
  intros Hm Hwebp Hs Ha.
  assert (Hi := webp_is_image _ Hwebp).
  assert (Hstrat : selectStrategy (url request) = CACHE_FIRST)
    by (unfold selectStrategy; by rewrite Hs, Ha, Hi).
  assert (Hname : getCacheName request = DYNAMIC_CACHE)
    by (unfold getCacheName; by rewrite Hs, Ha).
  split_and!; try done.
  - unfold onFetch. rewrite Hm, Hstrat. reflexivity.
  - intros Hmiss Hnet Hok.
    rewrite (cacheFirst_miss_response selfOrigin net request w fresh Hmiss Hnet).
    rewrite Hok, Hname. cbn [snd].
    set (w' := withCaches _ _).
    assert (Hc : caches w' = Store.put DYNAMIC_CACHE (requestKey request) fresh
                               (Store.open DYNAMIC_CACHE (caches w))) by done.
    split_and!.
    + rewrite Hc. destruct (lookupCache_open DYNAMIC_CACHE (caches w)) as [c Hopen].
      by eapply matchIn_put.
    + intros other Hne. rewrite Hc.
      rewrite lookupCache_put_other by done. by apply lookupCache_open_other.
    + apply cacheFirst_hit. rewrite Hc. by apply matchAny_put_open.
Qed.

End Classification.

(** ** Activation *)

Section Activation.

Implicit Types (cs : CacheStorage) (names : list string) (w : World).

Lemma withCaches_same w : withCaches (caches w) w = w.
Proof. by destruct w. Qed.

Lemma activate_fold w :
  activate w
  = (Fulfilled tt, withCaches (fold_left purge (Store.keys (caches w)) (caches w)) w).
Proof.
  unfold activate, mbind, Async_bind, andThen, caches_keys.
  generalize (Store.keys (caches w)). intros names.
  revert w. induction names as [|n rest IH]; intros w; cbn [promiseAllMap fold_left].
  - unfold resolve. by rewrite withCaches_same.
  - unfold purge at 2, isCurrentCache.
    destruct (String.eqb n STATIC_CACHE), (String.eqb n DYNAMIC_CACHE),
      (String.eqb n API_CACHE); cbn [negb andb orb];
      unfold caches_delete, resolve; by rewrite IH.
Qed.

Lemma filter_filter {A} (f g : A -> bool) (l : list A) :
  List.filter f (List.filter g l) = List.filter (fun x => g x && f x) l.
Proof.
  induction l as [|x l IH]; cbn; [done|].
  destruct (g x); cbn; [destruct (f x)|]; by rewrite IH.
Qed.

Lemma filter_all {A} (f : A -> bool) (l : list A) :
  (forall x, In x l -> f x = true) -> List.filter f l = l.
Proof.
  induction l as [|x l IH]; cbn; [done|]. intros H.
  rewrite (H x) by auto. f_equal. apply IH. auto.
Qed.

Lemma fold_purge names cs :
  fold_left purge names cs
  = List.filter
      (fun nc => isCurrentCache (fst nc)
                 || negb (existsb (String.eqb (fst nc)) names)) cs.
Proof.
  revert cs. induction names as [|n rest IH]; intros cs; cbn [fold_left].
  - symmetry. apply filter_all. intros x _. cbn. apply orb_true_r.
  - rewrite IH. unfold purge. destruct (isCurrentCache n) eqn:Hn.
    + apply filter_ext. intros [m c]. cbn.
      destruct (String.eqb m n) eqn:E; [|done].
      apply String.eqb_eq in E. subst m. by rewrite Hn.
    + unfold Store.delete. rewrite filter_filter. apply filter_ext.
      intros [m c]. cbn. destruct (String.eqb m n) eqn:E; [|done].
      apply String.eqb_eq in E. subst m. by rewrite Hn.
Qed.

Lemma lookupCache_filter_current name cs :
  Store.lookupCache name (List.filter (fun nc => isCurrentCache (fst nc)) cs)
  = if isCurrentCache name then Store.lookupCache name cs else None.
Proof.
  induction cs as [|[n c] rest IH]; cbn.
  - by destruct (isCurrentCache name).
  - destruct (isCurrentCache n) eqn:Hn; cbn.
    + destruct (String.eqb n name) eqn:E; [|exact IH].
      apply String.eqb_eq in E. subst n. by rewrite Hn.
    + rewrite IH. destruct (String.eqb n name) eqn:E; [|done].
      apply String.eqb_eq in E. subst n. by rewrite Hn.
Qed.

(** C8. Activation deletes exactly the caches whose name is none of the
    three current ones; every current cache keeps its place and all of its
    entries; of static-v1, dynamic-v1, api-v1 and static-v0 only static-v0
    goes. *)
Theorem activate_purges_exactly_stale :
  (forall w,
      activate w
      = (Fulfilled tt,
         withCaches (List.filter (fun nc => isCurrentCache (fst nc)) (caches w)) w))
  /\ (forall w name,
      Store.lookupCache name (caches (snd (activate w)))
      = if isCurrentCache name then Store.lookupCache name (caches w) else None)
  /\ caches (snd (activate (mkWorld generations [] []))) = firstn 3 generations
  /\ Store.keys (caches (snd (activate (mkWorld generations [] []))))
     = [STATIC_CACHE; DYNAMIC_CACHE; API_CACHE].
Proof.
  assert (H : forall w,
             activate w
             = (Fulfilled tt,
                withCaches (List.filter (fun nc => isCurrentCache (fst nc)) (caches w)) w)).
  { intros w. rewrite activate_fold, fold_purge. do 2 f_equal.
    apply filter_ext_in. intros [n c] Hin. cbn.
    assert (E : existsb (String.eqb n) (Store.keys (caches w)) = true).
    { apply existsb_exists. exists n. split; [|apply String.eqb_refl].
      unfold Store.keys. change n with (fst (n, c)). by apply in_map. }
    rewrite E. cbn. apply orb_false_r. }
  split_and!.
  - exact H.
  - intros w name. rewrite H. cbn. apply lookupCache_filter_current.
  - rewrite H. reflexivity.
  - rewrite H. reflexivity.
Qed.

End Activation.

(** ** Background sync *)

Section BackgroundSync.

Variable selfOrigin : string.
Variable net : Network.

(** [getOfflineOrders] always answers the empty list, so the loop body
    never runs: nothing is fetched and the queue is not touched. *)
Lemma syncOfflineOrders_idle (w : World) :
  syncOfflineOrders selfOrigin net w = (Fulfilled tt, w).
Proof. reflexivity. Qed.

End BackgroundSync.

(** C7. With orders A, B and C queued and a network that accepts A and B
    and is unreachable for C, background sync attempts no delivery and
    leaves all three orders queued, where the specification expects C
    alone to remain. *)
Theorem syncOfflineOrders_delivers_nothing :
  ok (mkResponse 201 "Created" [] "") = true
  /\ netOrders 0%nat (orderRequest sampleOrigin orderA)
     = NetResponse (mkResponse 201 "Created" [] "")
  /\ netOrders 1%nat (orderRequest sampleOrigin orderB)
     = NetResponse (mkResponse 201 "Created" [] "")
  /\ netOrders 2%nat (orderRequest sampleOrigin orderC) = NetError "Failed to fetch"
  /\ syncOfflineOrders sampleOrigin netOrders queuedWorld = (Fulfilled tt, queuedWorld)
  /\ fetchLog (snd (syncOfflineOrders sampleOrigin netOrders queuedWorld)) = []
  /\ offlineOrders (snd (syncOfflineOrders sampleOrigin netOrders queuedWorld))
     = [orderA; orderB; orderC]
  /\ offlineOrders (snd (syncOfflineOrders sampleOrigin netOrders queuedWorld))
     <> [orderC].
Proof.
  split_and!; try reflexivity.
  rewrite syncOfflineOrders_idle. cbn. discriminate.
Qed.

(** ** Where the worker hands out [undefined] *)

(** C1. A GET request for an API path, with an empty store and the network
    down, is served by stale-while-revalidate, and the worker answers
    [undefined], not the fallback generator's response for that request. *)
Theorem staleWhileRevalidate_offline_miss_undefined :
  method apiRequest = "GET"
  /\ selectStrategy (url apiRequest) = STALE_WHILE_REVALIDATE
  /\ Store.matchIn (getCacheName apiRequest) (requestKey apiRequest)
       (caches emptyWorld) = None
  /\ netDown 0%nat apiRequest = NetError "Failed to fetch"
  /\ fst (fetchEvent sampleOrigin netDown apiRequest emptyWorld)
     = Some (Fulfilled VUndefined)
  /\ fst (getOfflineFallback sampleOrigin apiRequest
            (snd (fetchEvent sampleOrigin netDown apiRequest emptyWorld)))
     = Fulfilled (VResponse offlineAPIResponse).
Proof. split_and!; reflexivity. Qed.

(** C4. For a navigation with no root document in the static cache the
    fallback generator yields [undefined], not the offline page; with the
    root document stored it yields that document. *)
Theorem getOfflineFallback_navigation_undefined :
  mode pageRequest = "navigate"
  /\ Store.matchIn STATIC_CACHE (href (resolveURL sampleOrigin "/index.html"))
       (caches emptyWorld) = None
  /\ fst (getOfflineFallback sampleOrigin pageRequest emptyWorld) = Fulfilled VUndefined
  /\ fst (getOfflineFallback sampleOrigin pageRequest emptyWorld)
     <> Fulfilled (VResponse offlinePage)
  /\ fst (getOfflineFallback sampleOrigin pageRequest
            (mkWorld [ (STATIC_CACHE,
                        {[ href (resolveURL sampleOrigin "/index.html") := payloadP ]}) ]
                     [] []))
     = Fulfilled (VResponse payloadP).
Proof.
  split_and!; try reflexivity.
  rewrite getOfflineFallback_navigate by reflexivity. cbn. discriminate.
Qed.

(** ** Counterexamples *)

(** C3 fails: with an entry stored for the key, network-first handed a 404
    by the network returns the 404, not the stored entry. *)
Lemma networkFirst_returns_non_success :
  selectStrategy (url ordersPage) = NETWORK_FIRST
  /\ Store.matchAny (requestKey ordersPage) (caches dynamicWorld) = Some payloadP
  /\ ok notFound = false
  /\ fst (networkFirst sampleOrigin (netAnswers notFound) ordersPage dynamicWorld)
     = Fulfilled (VResponse notFound)
  /\ fst (networkFirst sampleOrigin (netAnswers notFound) ordersPage dynamicWorld)
     <> Fulfilled (VResponse payloadP).
Proof.
  split_and!; try (vm_compute; reflexivity).
  vm_compute. discriminate.
Qed.

Lemma envelope_error_field_differs message :
  body offlineAPIResponse <> JSON_stringify (specEnvelope message).
Proof. vm_compute. discriminate. Qed.

(** C9 fails: two requests with an image extension get different answers
    (one of them has an API path and gets the envelope), and the envelope's
    error field is "Offline", which no envelope with the error field
    "offline" equals, whatever its message. *)
Lemma getOfflineFallback_image_and_envelope_differ :
  isImageRequest (url imageRequest) = true
  /\ isImageRequest (url apiImageRequest) = true
  /\ mode imageRequest = mode apiImageRequest
  /\ fst (getOfflineFallback sampleOrigin imageRequest emptyWorld)
     = Fulfilled (VResponse offlineImageResponse)
  /\ fst (getOfflineFallback sampleOrigin apiImageRequest emptyWorld)
     = Fulfilled (VResponse offlineAPIResponse)
  /\ fst (getOfflineFallback sampleOrigin imageRequest emptyWorld)
     <> fst (getOfflineFallback sampleOrigin apiImageRequest emptyWorld)
  /\ (forall message,
         body (offlineAPIResponse) <> JSON_stringify (specEnvelope message)).
Proof.
  split_and!; try reflexivity.
  - vm_compute. discriminate.
  - apply envelope_error_field_differs.
Qed.

(** ** The theorems at concrete inputs *)

Lemma staleWhileRevalidate_hit_witness :
  Store.matchIn (getCacheName apiRequest) (requestKey apiRequest) (caches warmWorld)
  = Some payloadP
  /\ fst (staleWhileRevalidate sampleOrigin (netAnswers payloadQ) apiRequest warmWorld)
     = Fulfilled (VResponse payloadP)
  /\ fetchLog (snd (staleWhileRevalidate sampleOrigin (netAnswers payloadQ)
                      apiRequest warmWorld))
     = ([] ++ [apiRequest])%list.
Proof.
  assert (H : Store.matchIn (getCacheName apiRequest) (requestKey apiRequest)
                (caches warmWorld) = Some payloadP) by (vm_compute; reflexivity).
  split; [exact H|].
  pose proof (staleWhileRevalidate_hit sampleOrigin (netAnswers payloadQ)
                apiRequest warmWorld payloadP H) as (Hout & Hlog & _).
  split; [exact Hout | exact Hlog].
Defined.

Lemma cacheFirst_protocol_witness :
  serveRepeatedly (cacheFirst sampleOrigin (netAnswers payloadQ)) 3 webpRequest
    (snd (cacheFirst sampleOrigin (netAnswers payloadQ) webpRequest emptyWorld))
  = (repeat (Fulfilled (VResponse payloadQ)) 3,
     snd (cacheFirst sampleOrigin (netAnswers payloadQ) webpRequest emptyWorld))
  /\ fetchLog (snd (cacheFirst sampleOrigin (netAnswers payloadQ) webpRequest emptyWorld))
     = (fetchLog emptyWorld ++ [webpRequest])%list.
Proof.
  apply (proj2 (proj2 (proj2
           (cacheFirst_protocol sampleOrigin (netAnswers payloadQ) webpRequest emptyWorld)))).
  - reflexivity.
  - reflexivity.
  - reflexivity.
Defined.

Lemma networkFirst_protocol_witness :
  networkFirst sampleOrigin netDown ordersPage dynamicWorld
  = (Fulfilled (VResponse payloadP), afterFetch ordersPage dynamicWorld).
Proof.
  apply (proj1 (proj2 (networkFirst_protocol sampleOrigin netDown ordersPage dynamicWorld))
           "Failed to fetch" payloadP).
  - reflexivity.
  - vm_compute. reflexivity.
Defined.

Lemma classification_first_match_witness :
  onFetch sampleOrigin netDown postRequest = None
  /\ forall w, fetchEvent sampleOrigin netDown postRequest w = (None, w).
Proof.
  apply (proj1 (classification_first_match sampleOrigin netDown postRequest)).
  cbn. discriminate.
Defined.

Lemma getOfflineFallback_deterministic_witness :
  getOfflineFallback sampleOrigin apiRequest emptyWorld
  = getOfflineFallback sampleOrigin apiImageRequest emptyWorld.
Proof.
  apply (proj1 (getOfflineFallback_deterministic sampleOrigin)).
  reflexivity.
Defined.

Lemma webp_cache_first_in_dynamic_witness :
  selectStrategy (url webpRequest) = CACHE_FIRST
  /\ getCacheName webpRequest = DYNAMIC_CACHE
  /\ Store.matchIn DYNAMIC_CACHE (requestKey webpRequest)
       (caches (snd (cacheFirst sampleOrigin (netAnswers payloadQ) webpRequest emptyWorld)))
     = Some payloadQ.
Proof.
  pose proof (webp_cache_first_in_dynamic sampleOrigin (netAnswers payloadQ)
                webpRequest emptyWorld payloadQ
                eq_refl eq_refl eq_refl eq_refl) as (_ & Hs & Hn & Hstore).
  split; [exact Hs|]. split; [exact Hn|].
  exact (proj1 (Hstore eq_refl eq_refl eq_refl)).
Defined.

(** * Further properties of the worker *)

(** ** How puts and opens show in lookups *)

Section StoreFrame.

Implicit Types (cs : CacheStorage) (name key : string) (r : Response).

Lemma matchIn_open name' key' name cs :
  Store.matchIn name' key' (Store.open name cs) = Store.matchIn name' key' cs.
Proof.
  unfold Store.matchIn, Store.open.
  destruct (Store.lookupCache name cs) as [c|] eqn:E; [done|].
  destruct (Store.lookupCache name' cs) as [c'|] eqn:E'.
  - assert (H : Store.lookupCache name' (cs ++ [(name, ∅)])%list = Some c').
    { clear E. induction cs as [|[n c0] rest IH]; cbn in *; [done|].
      destruct (String.eqb n name'); [done|]. by apply IH. }
    by rewrite H.
  - rewrite lookupCache_app_miss by done. cbn.
    destruct (String.eqb name name'); [apply lookup_empty|done].
Qed.

Lemma matchIn_put_frame name' key' name key cs r :
  key' <> key ->
  Store.matchIn name' key' (Store.put name key r cs) = Store.matchIn name' key' cs.
Proof.
  intros Hk. destruct (String.eqb name' name) eqn:E.
  - apply String.eqb_eq in E. subst name'. by apply matchIn_put_other_key.
  - apply String.eqb_neq in E. unfold Store.matchIn.
    by rewrite lookupCache_put_other.
Qed.

Lemma matchIn_put_inv name' key' name key cs r r' :
  Store.matchIn name' key' (Store.put name key r cs) = Some r' ->
  r' = r \/ Store.matchIn name' key' cs = Some r'.
Proof.
  unfold Store.matchIn. induction cs as [|[n c] rest IH]; cbn; [done|].
  destruct (String.eqb n name) eqn:E; cbn.
  - destruct (String.eqb n name'); [|by right].
    destruct (decide (key = key')) as [->|Hne].
    + rewrite lookup_insert_eq. intros [= ->]. by left.
    + rewrite lookup_insert_ne by done. by right.
  - destruct (String.eqb n name'); [by right|]. apply IH.
Qed.

Lemma matchIn_put_keeps name' key' name key cs r :
  is_Some (Store.matchIn name' key' cs) ->
  is_Some (Store.matchIn name' key' (Store.put name key r cs)).
Proof.
  unfold Store.matchIn. induction cs as [|[n c] rest IH]; cbn; [done|].
  destruct (String.eqb n name) eqn:E; cbn.
  - destruct (String.eqb n name'); [|done].
    destruct (decide (key = key')) as [->|Hne].
    + rewrite lookup_insert_eq. eauto.
    + by rewrite lookup_insert_ne.
  - destruct (String.eqb n name'); [done|]. apply IH.
Qed.

Lemma In_open name n (c : Cache) cs :
  In (n, c) (Store.open name cs) -> In (n, c) cs \/ c = ∅.
Proof.
  unfold Store.open. destruct (Store.lookupCache name cs); [by left|].
  intros H. apply in_app_or in H as [H|[H|[]]]; [by left|].
  right. congruence.
Qed.

Lemma In_put name key r n (c : Cache) cs :
  In (n, c) (Store.put name key r cs) ->
  In (n, c) cs \/ exists c0, In (n, c0) cs /\ c = <[key := r]> c0.
Proof.
  induction cs as [|[m c0] rest IH]; cbn; [done|].
  destruct (String.eqb m name) eqn:E; cbn.
  - intros [H|H]; [|by left; right].
    injection H as <- <-. right. exists c0. by split; [left|].
  - intros [H|H]; [by left; left|].
    destruct (IH H) as [H'|(c1 & H1 & H2)]; [by left; right|].
    right. exists c1. by split; [right|].
Qed.

Lemma keys_open name cs :
  exists extra, Store.keys (Store.open name cs) = (Store.keys cs ++ extra)%list.
Proof.
  unfold Store.open, Store.keys. destruct (Store.lookupCache name cs).
  - exists []. by rewrite app_nil_r.
  - exists [name]. by rewrite map_app.
Qed.

Lemma keys_put name key r cs :
  Store.keys (Store.put name key r cs) = Store.keys cs.
Proof.
  unfold Store.keys. induction cs as [|[n c] rest IH]; cbn; [done|].
  destruct (String.eqb n name); cbn; [done|]. by rewrite IH.
Qed.

(** The three consequences of a [StoreEffect] used below. *)
Lemma StoreEffect_frame request cs cs' name key :
  StoreEffect request cs cs' ->
  key <> requestKey request ->
  Store.matchIn name key cs' = Store.matchIn name key cs.
Proof.
  intros [|n|r Hr] Hk; [done|apply matchIn_open|].
  rewrite matchIn_put_frame by done. apply matchIn_open.
Qed.

Lemma StoreEffect_keeps request cs cs' name key :
  StoreEffect request cs cs' ->
  is_Some (Store.matchIn name key cs) ->
  is_Some (Store.matchIn name key cs').
Proof.
  intros [|n|r Hr] H; [done|by rewrite matchIn_open|].
  apply matchIn_put_keeps. by rewrite matchIn_open.
Qed.

Lemma StoreEffect_allStoredOk request cs cs' :
  StoreEffect request cs cs' -> allStoredOk cs -> allStoredOk cs'.
Proof.
  intros [|n|r Hr] Hall; [done| |].
  - intros m c key r Hin Hl. apply In_open in Hin as [Hin| ->].
    + by apply (Hall m c key r).
    + by rewrite lookup_empty in Hl.
  - intros m c key r' Hin Hl. apply In_put in Hin as [Hin|(c0 & Hin & ->)].
    + apply In_open in Hin as [Hin| ->].
      * by apply (Hall m c key r').
      * by rewrite lookup_empty in Hl.
    + destruct (decide (requestKey request = key)) as [<-|Hne].
      * rewrite lookup_insert_eq in Hl. by injection Hl as <-.
      * rewrite lookup_insert_ne in Hl by done.
        apply In_open in Hin as [Hin| ->].
        -- by apply (Hall m c0 key r').
        -- by rewrite lookup_empty in Hl.
Qed.

Lemma StoreEffect_keys request cs cs' :
  StoreEffect request cs cs' ->
  exists extra, Store.keys cs' = (Store.keys cs ++ extra)%list.
Proof.
  intros [|n|r Hr].
  - exists []. by rewrite app_nil_r.
  - apply keys_open.
  - rewrite keys_put. apply keys_open.
Qed.

End StoreFrame.

(** ** What serving a request does to the world *)

Section ServingEffects.

Variable selfOrigin : string.
Variable net : Network.

Implicit Types (request : Request) (w : World).

Lemma getOfflineFallback_served request w :
  exists v w',
    getOfflineFallback selfOrigin request w = (Fulfilled v, w')
    /\ StoreEffect request (caches w) (caches w')
    /\ fetchLog w' = fetchLog w
    /\ offlineOrders w' = offlineOrders w.
Proof.
  rewrite getOfflineFallback_by_category.
  destruct (fallbackCategory request); eexists _, _; (split; [reflexivity|]);
    cbn; split_and!; try done; constructor.
Qed.

Lemma Served_after_fetch request w outcome :
  Served request (afterFetch request w) outcome ->
  fetchLog (snd outcome) = (fetchLog w ++ [request])%list ->
  Served request w outcome.
Proof.
  intros (v & w' & -> & He & _ & Ho) Hlog. exists v, w'. cbn in *.
  split_and!; try done. by right.
Qed.

Lemma fallback_after_fetch_served request w :
  Served request w (getOfflineFallback selfOrigin request (afterFetch request w)).
Proof.
  destruct (getOfflineFallback_served request (afterFetch request w))
    as (v & w' & E & He & Hl & Ho).
  rewrite E. exists v, w'. cbn in *. split_and!; try done. by right.
Qed.

Lemma cacheFirst_served request w :
  Served request w (cacheFirst selfOrigin net request w).
Proof.
  destruct (Store.matchAny (requestKey request) (caches w)) as [stored|] eqn:Hm.
  - rewrite (cacheFirst_hit _ _ _ _ _ Hm). exists (VResponse stored), w.
    split_and!; try done; [constructor|by left].
  - destruct (net (List.length (fetchLog w)) request) as [r|e] eqn:Hnet.
    + rewrite (cacheFirst_miss_response _ _ _ _ _ Hm Hnet).
      destruct (ok r) eqn:Hok; eexists _, _; (split; [reflexivity|]); cbn;
        split_and!; try done; try (by right); by constructor.
    + assert (E : cacheFirst selfOrigin net request w
                  = getOfflineFallback selfOrigin request (afterFetch request w)).
      { unfold cacheFirst. run. rewrite Hm. by rewrite (fetch_error net _ _ _ Hnet). }
      rewrite E. apply fallback_after_fetch_served.
Qed.

Lemma networkFirst_served request w :
  Served request w (networkFirst selfOrigin net request w).
Proof.
  destruct (net (List.length (fetchLog w)) request) as [r|e] eqn:Hnet.
  - assert (E : networkFirst selfOrigin net request w
                = (Fulfilled (VResponse r),
                   if ok r
                   then withCaches
                          (Store.put (getCacheName request) (requestKey request) r
                                     (Store.open (getCacheName request) (caches w)))
                          (afterFetch request w)
                   else afterFetch request w)).
    { unfold networkFirst. run. rewrite (fetch_response net _ _ _ Hnet).
      by destruct (ok r). }
    rewrite E. destruct (ok r) eqn:Hok; eexists _, _; (split; [reflexivity|]); cbn;
      split_and!; try done; try (by right); by constructor.
  - destruct (Store.matchAny (requestKey request) (caches w)) as [stored|] eqn:Hm.
    + assert (E : networkFirst selfOrigin net request w
                  = (Fulfilled (VResponse stored), afterFetch request w)).
      { unfold networkFirst. run. rewrite (fetch_error net _ _ _ Hnet). cbn.
        by rewrite Hm. }
      rewrite E. eexists _, _. split; [reflexivity|]. cbn.
      split_and!; try done; [constructor|by right].
    + assert (E : networkFirst selfOrigin net request w
                  = getOfflineFallback selfOrigin request (afterFetch request w)).
      { unfold networkFirst. run. rewrite (fetch_error net _ _ _ Hnet). cbn.
        by rewrite Hm. }
      rewrite E. apply fallback_after_fetch_served.
Qed.

(** Stale-while-revalidate, case by case. *)
Lemma staleWhileRevalidate_cases request w :
  staleWhileRevalidate selfOrigin net request w
  = let part := getCacheName request in
    let opened := Store.open part (caches w) in
    let stored := Store.matchIn part (requestKey request) (caches w) in
    match net (List.length (fetchLog w)) request with
    | NetResponse r =>
        (Fulfilled (match stored with Some s => VResponse s | None => VResponse r end),
         if ok r
         then withCaches (Store.put part (requestKey request) r opened)
                         (afterFetch request w)
         else withCaches opened (afterFetch request w))
    | NetError _ =>
        (Fulfilled (ofOption stored), withCaches opened (afterFetch request w))
    end.
Proof.
  unfold staleWhileRevalidate. run. rewrite matchIn_open.
  destruct (Store.matchIn (getCacheName request) (requestKey request) (caches w))
    as [s|] eqn:Hs; run.
  - destruct (net (List.length (fetchLog w)) request) as [r|e] eqn:Hnet.
    + rewrite (networkPromise_response net _ _ _ r) by exact Hnet.
      cbn. by destruct (ok r).
    + by rewrite (networkPromise_error net _ _ _ e) by exact Hnet.
  - destruct (net (List.length (fetchLog w)) request) as [r|e] eqn:Hnet.
    + rewrite (networkPromise_response net _ _ _ r) by exact Hnet.
      cbn. by destruct (ok r).
    + by rewrite (networkPromise_error net _ _ _ e) by exact Hnet.
Qed.

Lemma staleWhileRevalidate_served request w :
  Served request w (staleWhileRevalidate selfOrigin net request w).
Proof.
  rewrite staleWhileRevalidate_cases. cbn zeta.
  destruct (net (List.length (fetchLog w)) request) as [r|e].
  - destruct (ok r) eqn:Hok; eexists _, _; (split; [reflexivity|]); cbn;
      split_and!; try done; try (by right); by constructor.
  - eexists _, _. split; [reflexivity|]. cbn.
    split_and!; try done; [constructor|by right].
Qed.

Lemma handleRequest_served request strategy w :
  selectable strategy = true ->
  Served request w (handleRequest selfOrigin net request strategy w).
Proof.
  destruct strategy; cbn; try discriminate; intros _.
  - apply cacheFirst_served.
  - apply networkFirst_served.
  - apply staleWhileRevalidate_served.
Qed.

Lemma selectStrategy_selectable (u : URL) : selectable (selectStrategy u) = true.
Proof.
  unfold selectStrategy.
  by destruct (isStaticAsset u), (isAPIRequest u), (isImageRequest u).
Qed.

Lemma fetchEvent_served request w :
  method request = "GET" ->
  exists v w',
    fetchEvent selfOrigin net request w = (Some (Fulfilled v), w')
    /\ StoreEffect request (caches w) (caches w')
    /\ (fetchLog w' = fetchLog w \/ fetchLog w' = (fetchLog w ++ [request])%list)
    /\ offlineOrders w' = offlineOrders w.
Proof.
  intros Hm. unfold fetchEvent, onFetch. rewrite Hm. cbn.
  destruct (handleRequest_served request (selectStrategy (url request)) w
              (selectStrategy_selectable _)) as (v & w' & E & H).
  rewrite E. by exists v, w'.
Qed.

End ServingEffects.

(** ** Serving a GET request: outcome, network use and store changes *)

Section ServingProperties.

Variable selfOrigin : string.
Variable net : Network.

Implicit Types (request : Request) (w : World).

(** X1. The answer to a GET request is always a fulfilled promise: whatever
    the network and the store hold, the worker never rejects it. *)
Theorem fetchEvent_never_rejects request w :
  method request = "GET" ->
  exists v, fst (fetchEvent selfOrigin net request w) = Some (Fulfilled v).
Proof.
  intros Hm.
  destruct (fetchEvent_served selfOrigin net request w Hm) as (v & w' & E & _).
  exists v. by rewrite E.
Qed.

(** X2. Serving a GET request issues at most one network fetch, and that
    fetch is for the request itself; the order queue is left alone. *)
Theorem fetchEvent_fetches_at_most_once request w :
  method request = "GET" ->
  (fetchLog (snd (fetchEvent selfOrigin net request w)) = fetchLog w
   \/ fetchLog (snd (fetchEvent selfOrigin net request w))
      = (fetchLog w ++ [request])%list)
  /\ offlineOrders (snd (fetchEvent selfOrigin net request w)) = offlineOrders w.
Proof.
  intros Hm.
  destruct (fetchEvent_served selfOrigin net request w Hm) as (v & w' & E & _ & Hl & Ho).
  by rewrite E.
Qed.

(** X3. Serving a GET request changes no entry stored under another URL,
    in any cache. *)
Theorem fetchEvent_touches_one_key request w name key :
  method request = "GET" ->
  key <> requestKey request ->
  Store.matchIn name key (caches (snd (fetchEvent selfOrigin net request w)))
  = Store.matchIn name key (caches w).
Proof.
  intros Hm Hk.
  destruct (fetchEvent_served selfOrigin net request w Hm) as (v & w' & E & He & _).
  rewrite E. by apply StoreEffect_frame with request.
Qed.

(** X4. Serving a GET request never removes anything: an entry that could
    be looked up before can be looked up after, and the caches that existed
    still exist, in the same order, before any new one. *)
Theorem fetchEvent_keeps_entries request w :
  method request = "GET" ->
  (forall name key,
      is_Some (Store.matchIn name key (caches w)) ->
      is_Some (Store.matchIn name key
                 (caches (snd (fetchEvent selfOrigin net request w)))))
  /\ exists created,
      Store.keys (caches (snd (fetchEvent selfOrigin net request w)))
      = (Store.keys (caches w) ++ created)%list.
Proof.
  intros Hm.
  destruct (fetchEvent_served selfOrigin net request w Hm) as (v & w' & E & He & _).
  rewrite E. split.
  - intros name key. by apply StoreEffect_keeps with request.
  - by apply StoreEffect_keys with request.
Qed.

(** X5. The worker caches successful responses only: when every stored
    entry is a 2xx response, this is still so after serving a GET request. *)
Theorem fetchEvent_stores_only_success request w :
  method request = "GET" ->
  allStoredOk (caches w) ->
  allStoredOk (caches (snd (fetchEvent selfOrigin net request w))).
Proof.
  intros Hm Hall.
  destruct (fetchEvent_served selfOrigin net request w Hm) as (v & w' & E & He & _).
  rewrite E. by apply StoreEffect_allStoredOk with request (caches w).
Qed.

(** X6. Stale-while-revalidate answers [undefined] in exactly one
    situation: its partition has no entry for the request and the fetch is
    rejected. *)
Theorem staleWhileRevalidate_undefined_iff request w :
  fst (staleWhileRevalidate selfOrigin net request w) = Fulfilled VUndefined
  <-> Store.matchIn (getCacheName request) (requestKey request) (caches w) = None
      /\ exists e, net (List.length (fetchLog w)) request = NetError e.
Proof.
  rewrite staleWhileRevalidate_cases. cbn zeta.
  destruct (net (List.length (fetchLog w)) request) as [r|e];
    destruct (Store.matchIn (getCacheName request) (requestKey request) (caches w));
    cbn; split; try done.
  - by intros [? _].
  - by intros [_ [? ?]].
  - by intros [? _].
  - eauto.
Qed.

(** X7. On a miss in its partition, stale-while-revalidate hands the caller
    whatever response the network gives, of any status, and stores it under
    the request's key exactly when it is 2xx. *)
Theorem staleWhileRevalidate_miss_response request w r :
  Store.matchIn (getCacheName request) (requestKey request) (caches w) = None ->
  net (List.length (fetchLog w)) request = NetResponse r ->
  fst (staleWhileRevalidate selfOrigin net request w) = Fulfilled (VResponse r)
  /\ Store.matchIn (getCacheName request) (requestKey request)
       (caches (snd (staleWhileRevalidate selfOrigin net request w)))
     = (if ok r then Some r else None).
Proof.
  intros Hmiss Hnet. rewrite staleWhileRevalidate_cases. cbn zeta.
  rewrite Hnet, Hmiss. split; [done|].
  destruct (ok r); cbn.
  - destruct (lookupCache_open (getCacheName request) (caches w)) as [c Hc].
    by eapply matchIn_put.
  - by rewrite matchIn_open.
Qed.

(** X8. Stale-while-revalidate is one fetch behind: once a call has fetched
    a 2xx response, the next call for the same request hands out that
    response, whatever the network does by then. *)
Theorem staleWhileRevalidate_serves_last_refresh request w r :
  net (List.length (fetchLog w)) request = NetResponse r ->
  ok r = true ->
  fst (staleWhileRevalidate selfOrigin net request
         (snd (staleWhileRevalidate selfOrigin net request w)))
  = Fulfilled (VResponse r).
Proof.
  intros Hnet Hok.
  assert (Hstored : Store.matchIn (getCacheName request) (requestKey request)
                      (caches (snd (staleWhileRevalidate selfOrigin net request w)))
                    = Some r).
  { rewrite staleWhileRevalidate_cases. cbn zeta. rewrite Hnet, Hok. cbn.
    destruct (lookupCache_open (getCacheName request) (caches w)) as [c Hc].
    by eapply matchIn_put. }
  rewrite (staleWhileRevalidate_cases selfOrigin net request
             (snd (staleWhileRevalidate selfOrigin net request w))).
  cbn zeta. rewrite Hstored.
  by destruct (net (List.length
                      (fetchLog (snd (staleWhileRevalidate selfOrigin net request w))))
                   request).
Qed.

(** X9. For a request that is not a navigation, cache-first and
    network-first always hand the caller a response, never [undefined]. *)
Theorem cacheFirst_networkFirst_respond request w :
  mode request <> "navigate" ->
  (exists r, fst (cacheFirst selfOrigin net request w) = Fulfilled (VResponse r))
  /\ (exists r, fst (networkFirst selfOrigin net request w) = Fulfilled (VResponse r)).
Proof.
  intros Hmode.
  assert (Hfb : forall w', exists r,
               getOfflineFallback selfOrigin request w' = (Fulfilled (VResponse r), w')).
  { intros w'. rewrite getOfflineFallback_by_category. unfold fallbackCategory.
    apply String.eqb_neq in Hmode. rewrite Hmode.
    destruct (isAPIRequest (url request)); [eauto|].
    destruct (isImageRequest (url request)); eauto. }
  split.
  - destruct (Store.matchAny (requestKey request) (caches w)) as [stored|] eqn:Hm.
    + rewrite (cacheFirst_hit _ _ _ _ _ Hm). eauto.
    + destruct (net (List.length (fetchLog w)) request) as [r|e] eqn:Hnet.
      * rewrite (cacheFirst_miss_response _ _ _ _ _ Hm Hnet). eauto.
      * unfold cacheFirst. run. rewrite Hm, (fetch_error net _ _ _ Hnet).
        destruct (Hfb (afterFetch request w)) as [r ->]. eauto.
  - unfold networkFirst. run.
    destruct (net (List.length (fetchLog w)) request) as [r|e] eqn:Hnet.
    + rewrite (fetch_response net _ _ _ Hnet). destruct (ok r); cbn; eauto.
    + rewrite (fetch_error net _ _ _ Hnet). cbn.
      destruct (Store.matchAny (requestKey request) (caches w)); cbn; [eauto|].
      destruct (Hfb (afterFetch request w)) as [r ->]. eauto.
Qed.

End ServingProperties.

(** ** Classification: what the tests amount to *)

Section ClassificationProperties.

Lemma prefix_of_append (a b s : string) :
  String.prefix (String.append a b) s = true -> String.prefix a s = true.
Proof.
  revert s. induction a as [|c a IH]; intros s.
  - intros _. by destruct s.
  - rewrite append_cons. destruct s as [|d s]; cbn [String.prefix]; [done|].
    destruct (ascii_dec c d); [apply IH|done].
Qed.

(** X10. The endpoint list adds nothing to the API test: a path is an API
    path exactly when it starts with [/api/]. *)
Theorem isAPIRequest_is_prefix_test (u : URL) :
  isAPIRequest u = startsWith (pathname u) "/api/".
Proof.
  unfold isAPIRequest. destruct (startsWith (pathname u) "/api/") eqn:E; [done|].
  cbn [orb]. unfold API_ENDPOINTS. cbn [existsb].
  assert (H : forall rest,
             startsWith (pathname u) (String.append "/api/" rest) = false).
  { intros rest. destruct (startsWith (pathname u) (String.append "/api/" rest)) eqn:E';
      [|done].
    unfold startsWith in *. apply prefix_of_append in E'. congruence. }
  assert (H1 : startsWith (pathname u) "/api/restaurants" = false)
    by exact (H "restaurants").
  assert (H2 : startsWith (pathname u) "/api/menu" = false) by exact (H "menu").
  assert (H3 : startsWith (pathname u) "/api/search" = false) by exact (H "search").
  by rewrite H1, H2, H3.
Qed.

(** X11. A path that ends with one of the listed static assets is a static
    asset, whatever else it is: it is served cache-first from the static
    partition even when it is an API path. The list contains [/], so this
    holds of every path that ends in a slash. *)
Theorem listed_suffix_is_static (request : Request) (asset : string) :
  In asset STATIC_ASSETS ->
  endsWith (pathname (url request)) asset = true ->
  isStaticAsset (url request) = true
  /\ selectStrategy (url request) = CACHE_FIRST
  /\ getCacheName request = STATIC_CACHE.
Proof.
  intros Hin Hends.
  assert (Hs : isStaticAsset (url request) = true).
  { unfold isStaticAsset. apply orb_true_iff. left.
    apply existsb_exists. by exists asset. }
  unfold selectStrategy, getCacheName. by rewrite Hs.
Qed.

(** X12. The image rule of the fetch listener only ever applies to [.webp]:
    a path with any other image extension is already a static asset. *)
Theorem image_rule_is_webp_only (u : URL) :
  isStaticAsset u = false ->
  isImageRequest u = true ->
  endsWith (pathname u) ".webp" = true.
Proof.
  intros Hs Hi. unfold isImageRequest, matchesExtension in Hi.
  apply existsb_exists in Hi as (e & Hin & He).
  assert (Hstatic : In e STATIC_EXTENSIONS -> False).
  { intros Hin'. unfold isStaticAsset in Hs. apply orb_false_iff in Hs as [_ Hs].
    assert (matchesExtension STATIC_EXTENSIONS (pathname u) = true); [|congruence].
    unfold matchesExtension. apply existsb_exists. by exists e. }
  unfold IMAGE_EXTENSIONS in Hin. cbn in Hin.
  destruct Hin as [<-|[<-|[<-|[<-|[<-|[<-|[]]]]]]]; try exact He;
    exfalso; apply Hstatic; unfold STATIC_EXTENSIONS; cbn; tauto.
Qed.

(** X13. Strategy and partition agree: stale-while-revalidate is used
    exactly for the API partition, network-first only for the dynamic one,
    the static partition only with cache-first; and the partition is always
    one of the three caches that activation keeps. *)
Theorem strategy_and_partition_agree (request : Request) :
  (selectStrategy (url request) = STALE_WHILE_REVALIDATE
   <-> getCacheName request = API_CACHE)
  /\ (selectStrategy (url request) = NETWORK_FIRST ->
      getCacheName request = DYNAMIC_CACHE)
  /\ (getCacheName request = STATIC_CACHE ->
      selectStrategy (url request) = CACHE_FIRST)
  /\ isCurrentCache (getCacheName request) = true.
Proof.
  unfold selectStrategy, getCacheName.
  destruct (isStaticAsset (url request)), (isAPIRequest (url request)),
    (isImageRequest (url request)); split_and!; try split; try done.
Qed.

End ClassificationProperties.

(** ** Activation and the fallback, seen from the store *)

Section ActivationProperties.

Variable selfOrigin : string.
Variable net : Network.

Implicit Types (request : Request) (w : World) (cs : CacheStorage).

Lemma activate_as_filter w :
  activate w
  = (Fulfilled tt,
     withCaches (List.filter (fun nc => isCurrentCache (fst nc)) (caches w)) w).
Proof.
  rewrite activate_fold, fold_purge. do 2 f_equal.
  apply filter_ext_in. intros [n c] Hin. cbn.
  assert (E : existsb (String.eqb n) (Store.keys (caches w)) = true).
  { apply existsb_exists. exists n. split; [|apply String.eqb_refl].
    unfold Store.keys. change n with (fst (n, c)). by apply in_map. }
  rewrite E. cbn. apply orb_false_r.
Qed.

Lemma matchAny_None_In key cs :
  Store.matchAny key cs = None <->
  forall name (c : Cache), In (name, c) cs -> c !! key = None.
Proof.
  induction cs as [|[n c] rest IH]; cbn.
  - split; [intros _ ? ? []|done].
  - destruct (c !! key) eqn:E.
    + split; [done|]. intros H. specialize (H n c (or_introl eq_refl)). congruence.
    + rewrite IH. split.
      * intros H name c' [[= <- <-]|Hin]; [done|]. by apply (H name).
      * intros H name c' Hin. apply (H name). by right.
Qed.

Lemma matchAny_put_filtered key name cs r (c0 : Cache) :
  Store.matchAny key cs = None ->
  Store.lookupCache name cs = Some c0 ->
  isCurrentCache name = true ->
  Store.matchAny key
    (List.filter (fun nc => isCurrentCache (fst nc)) (Store.put name key r cs))
  = Some r.
Proof.
  intros Hmiss Hc Hcur. induction cs as [|[n c] rest IH]; cbn in *; [done|].
  destruct (c !! key) eqn:Ek; [done|].
  destruct (String.eqb n name) eqn:E; cbn.
  - apply String.eqb_eq in E. subst n. rewrite Hcur. cbn.
    by rewrite lookup_insert_eq.
  - destruct (isCurrentCache n); cbn; [rewrite Ek|]; by apply IH.
Qed.

(** X14. Activating twice is activating once, and activation neither uses
    the network nor touches the order queue. *)
Theorem activate_idempotent w :
  activate (snd (activate w)) = (Fulfilled tt, snd (activate w))
  /\ fetchLog (snd (activate w)) = fetchLog w
  /\ offlineOrders (snd (activate w)) = offlineOrders w.
Proof.
  rewrite !activate_as_filter. cbn. split_and!; try done.
  unfold withCaches. cbn. do 2 f_equal. rewrite filter_filter.
  apply filter_ext. intros x. by destruct (isCurrentCache (fst x)).
Qed.

(** X15. What cache-first has stored survives activation: after a miss
    answered by a 2xx response and an activation, the same request is served
    from the store, with no fetch. *)
Theorem cacheFirst_entry_survives_activation request w fresh :
  Store.matchAny (requestKey request) (caches w) = None ->
  net (List.length (fetchLog w)) request = NetResponse fresh ->
  ok fresh = true ->
  cacheFirst selfOrigin net request
    (snd (activate (snd (cacheFirst selfOrigin net request w))))
  = (Fulfilled (VResponse fresh),
     snd (activate (snd (cacheFirst selfOrigin net request w)))).
Proof.
  intros Hmiss Hnet Hok. apply cacheFirst_hit.
  rewrite activate_as_filter, (cacheFirst_miss_response _ _ _ _ _ Hmiss Hnet), Hok.
  cbn. destruct (lookupCache_open (getCacheName request) (caches w)) as [c Hc].
  apply matchAny_put_filtered with c; [by apply matchAny_open_miss|done|].
  unfold getCacheName.
  by destruct (isStaticAsset (url request)), (isAPIRequest (url request)).
Qed.

(** X16. Before activation, cache-first serves an entry held only by caches
    of an older generation, with no fetch; after activation no cache holds
    the key any more. *)
Theorem stale_generation_served_until_activation request w stored :
  Store.matchAny (requestKey request) (caches w) = Some stored ->
  (forall name (c : Cache),
      In (name, c) (caches w) -> isCurrentCache name = true ->
      c !! requestKey request = None) ->
  cacheFirst selfOrigin net request w = (Fulfilled (VResponse stored), w)
  /\ Store.matchAny (requestKey request) (caches (snd (activate w))) = None.
Proof.
  intros Hhit Hold. split; [by apply cacheFirst_hit|].
  rewrite activate_as_filter. cbn. apply matchAny_None_In.
  intros name c Hin. apply filter_In in Hin as [Hin Hcur]. by apply (Hold name).
Qed.

(** X17. The fallback generator is harmless: it is never rejected, never
    uses the network, leaves the order queue alone and changes the result of
    no lookup; unless the request is a navigation, it leaves the whole world
    as it was. *)
Theorem getOfflineFallback_harmless request w :
  (exists v, fst (getOfflineFallback selfOrigin request w) = Fulfilled v)
  /\ fetchLog (snd (getOfflineFallback selfOrigin request w)) = fetchLog w
  /\ offlineOrders (snd (getOfflineFallback selfOrigin request w)) = offlineOrders w
  /\ (forall name key,
         Store.matchIn name key (caches (snd (getOfflineFallback selfOrigin request w)))
         = Store.matchIn name key (caches w))
  /\ (mode request <> "navigate" ->
      snd (getOfflineFallback selfOrigin request w) = w).
Proof.
  rewrite getOfflineFallback_by_category. unfold fallbackCategory.
  destruct (String.eqb (mode request) "navigate") eqn:Hm.
  - cbn. split_and!; try done; [eauto|intros; apply matchIn_open|].
    apply String.eqb_eq in Hm. congruence.
  - destruct (isAPIRequest (url request)); [|destruct (isImageRequest (url request))];
      cbn; split_and!; eauto.
Qed.

(** X18. Network-first keeps the last good answer for offline use: when no
    cache holds the key, a 2xx response fetched by one call is what the next
    call returns if the network then fails. *)
Theorem networkFirst_offline_after_online request w r e :
  Store.matchAny (requestKey request) (caches w) = None ->
  net (List.length (fetchLog w)) request = NetResponse r ->
  ok r = true ->
  net (S (List.length (fetchLog w))) request = NetError e ->
  fst (networkFirst selfOrigin net request
         (snd (networkFirst selfOrigin net request w)))
  = Fulfilled (VResponse r).
Proof.
  intros Hmiss Hnet Hok Hoff.
  assert (E : networkFirst selfOrigin net request w
              = (Fulfilled (VResponse r),
                 withCaches
                   (Store.put (getCacheName request) (requestKey request) r
                              (Store.open (getCacheName request) (caches w)))
                   (afterFetch request w))).
  { unfold networkFirst. run. rewrite (fetch_response net _ _ _ Hnet).
    by rewrite Hok. }
  rewrite E. cbn [snd]. unfold networkFirst. run.
  rewrite (fetch_error net _ _ e).
  - cbn. by rewrite matchAny_put_open.
  - cbn. rewrite length_app. cbn. by rewrite Nat.add_1_r.
Qed.

(** X19. An older copy shadows the fresh one: when the first cache in
    creation order is not the request's partition and holds an entry for
    the key, network-first still stores each 2xx answer in the partition,
    but once the network fails it returns the older copy. *)
Theorem networkFirst_offline_returns_shadowing_copy
    request w name0 (c0 : Cache) rest old r e :
  caches w = (name0, c0) :: rest ->
  c0 !! requestKey request = Some old ->
  name0 <> getCacheName request ->
  net (List.length (fetchLog w)) request = NetResponse r ->
  ok r = true ->
  net (S (List.length (fetchLog w))) request = NetError e ->
  Store.matchIn (getCacheName request) (requestKey request)
    (caches (snd (networkFirst selfOrigin net request w))) = Some r
  /\ fst (networkFirst selfOrigin net request
            (snd (networkFirst selfOrigin net request w)))
     = Fulfilled (VResponse old).
Proof.
  intros Hcs Hold Hne Hnet Hok Hoff.
  assert (E : networkFirst selfOrigin net request w
              = (Fulfilled (VResponse r),
                 withCaches
                   (Store.put (getCacheName request) (requestKey request) r
                              (Store.open (getCacheName request) (caches w)))
                   (afterFetch request w))).
  { unfold networkFirst. run. rewrite (fetch_response net _ _ _ Hnet).
    by rewrite Hok. }
  rewrite E. cbn [snd]. split.
  - cbn. destruct (lookupCache_open (getCacheName request) (caches w)) as [c Hc].
    by eapply matchIn_put.
  - unfold networkFirst. run. rewrite (fetch_error net _ _ e).
    + cbn. rewrite Hcs.
      assert (Hhead : exists rest',
                 Store.put (getCacheName request) (requestKey request) r
                   (Store.open (getCacheName request) ((name0, c0) :: rest))
                 = (name0, c0) :: rest').
      { apply String.eqb_neq in Hne. unfold Store.open.
        destruct (Store.lookupCache (getCacheName request) ((name0, c0) :: rest));
          cbn; rewrite Hne; eauto. }
      destruct Hhead as [rest' ->]. cbn. by rewrite Hold.
    + cbn. rewrite length_app. cbn. by rewrite Nat.add_1_r.
Qed.

End ActivationProperties.

(** ** Batches: [cache.addAll] *)

Section Batches.

Variable toURL : string -> URL.
Variable net : Network.

Implicit Types (w : World) (cs : CacheStorage) (urls : list string).

Lemma fetchAll_eq (requests : list Request) w :
  fetchAll net requests w
  = (Fulfilled (answers net (List.length (fetchLog w)) requests),
     afterFetches requests w).
Proof.
  revert w. induction requests as [|request rest IH]; intros w.
  - cbn. unfold resolve, afterFetches. rewrite app_nil_r. by destruct w.
  - cbn [fetchAll answers]. unfold mbind, Async_bind, andThen, settle, fetch.
    destruct (net (List.length (fetchLog w)) request) as [r|e];
      rewrite IH; cbn; unfold resolve, afterFetches; cbn;
      rewrite length_app, Nat.add_1_r, <- app_assoc; reflexivity.
Qed.

Lemma putAll_eq cache (entries : list (string * Response)) w :
  putAll cache entries w
  = (Fulfilled tt, withCaches (putEntries cache entries (caches w)) w).
Proof.
  revert w. induction entries as [|[key r] rest IH]; intros w.
  - cbn. unfold resolve. by rewrite withCaches_same.
  - cbn [putAll]. unfold mbind, Async_bind, andThen, cache_put. by rewrite IH.
Qed.

(** [cache.addAll], outcome by outcome. *)
Lemma cache_addAll_eq cache urls w :
  cache_addAll toURL net cache urls w
  = let requests := List.map (requestFor toURL) urls in
    match allSuccessful (answers net (List.length (fetchLog w)) requests) with
    | None => (Rejected "TypeError", afterFetches requests w)
    | Some responses =>
        if distinct (List.map requestKey requests)
        then (Fulfilled tt,
              withCaches
                (putEntries cache (combine (List.map requestKey requests) responses)
                            (caches w))
                (afterFetches requests w))
        else (Rejected "InvalidStateError", afterFetches requests w)
    end.
Proof.
  unfold cache_addAll. cbn zeta. unfold mbind, Async_bind, andThen.
  rewrite fetchAll_eq.
  destruct (allSuccessful _) as [responses|]; [|done].
  destruct (distinct _); [|done]. by rewrite putAll_eq.
Qed.

Lemma allSuccessful_answers (answer : string -> Response) urls n :
  (forall m u, In u urls -> net m (requestFor toURL u) = NetResponse (answer u)) ->
  (forall u, In u urls -> ok (answer u) = true) ->
  allSuccessful (answers net n (List.map (requestFor toURL) urls))
  = Some (List.map answer urls).
Proof.
  revert n. induction urls as [|u rest IH]; intros n Hnet Hok; [done|].
  cbn. rewrite (Hnet n u) by (by left). rewrite (Hok u) by (by left).
  rewrite IH; [done| |]; intros; [apply Hnet|apply Hok]; by right.
Qed.

Lemma allSuccessful_failure urls n u :
  In u urls ->
  neverSucceeds net (requestFor toURL u) ->
  allSuccessful (answers net n (List.map (requestFor toURL) urls)) = None.
Proof.
  revert n. induction urls as [|u' rest IH]; intros n Hin Hfail; [done|].
  cbn. destruct Hin as [->|Hin].
  - specialize (Hfail n). destruct (net n (requestFor toURL u)) as [r|e]; [|done].
    by rewrite Hfail.
  - destruct (net n (requestFor toURL u')) as [r|e]; [|done].
    destruct (ok r); [|done]. by rewrite (IH (S n) Hin Hfail).
Qed.

Lemma distinct_head (k : string) (rest : list string) :
  distinct (k :: rest) = true -> ~ In k rest /\ distinct rest = true.
Proof.
  cbn. intros H. apply andb_true_iff in H as [H1 H2]. split; [|done].
  intros Hin. apply negb_true_iff in H1.
  assert (existsb (String.eqb k) rest = true); [|congruence].
  apply existsb_exists. exists k. split; [done|apply String.eqb_refl].
Qed.

Lemma putEntries_frame cache (entries : list (string * Response)) cs name key :
  ~ In key (List.map fst entries) ->
  Store.matchIn name key (putEntries cache entries cs) = Store.matchIn name key cs.
Proof.
  revert cs. induction entries as [|[k r] rest IH]; intros cs Hnot; [done|].
  cbn [List.map fst In] in Hnot. unfold putEntries in IH |- *.
  cbn [fold_left fst snd]. rewrite IH by (intros H; apply Hnot; by right).
  apply matchIn_put_frame. intros ->. apply Hnot. by left.
Qed.

Lemma lookupCache_put_present cache key r cs (c : Cache) :
  Store.lookupCache cache cs = Some c ->
  exists c', Store.lookupCache cache (Store.put cache key r cs) = Some c'.
Proof.
  induction cs as [|[n c0] rest IH]; cbn; [done|].
  destruct (String.eqb n cache) eqn:E; cbn; rewrite E; eauto.
Qed.

(** After a batch with distinct keys, every key of the batch holds its own
    response. *)
Lemma putEntries_lookup cache (answer : string -> Response) urls cs (c : Cache) u :
  Store.lookupCache cache cs = Some c ->
  distinct (List.map (fun u => requestKey (requestFor toURL u)) urls) = true ->
  In u urls ->
  Store.matchIn cache (requestKey (requestFor toURL u))
    (putEntries cache
       (combine (List.map (fun u => requestKey (requestFor toURL u)) urls)
                (List.map answer urls)) cs)
  = Some (answer u).
Proof.
  revert cs c. induction urls as [|u' rest IH]; intros cs c Hc Hd Hin; [done|].
  cbn [List.map combine] in *. apply distinct_head in Hd as [Hnot Hd].
  unfold putEntries in *. cbn [fold_left fst snd].
  destruct (lookupCache_put_present cache (requestKey (requestFor toURL u'))
              (answer u') cs c Hc) as [c' Hc'].
  destruct (in_dec string_dec u rest) as [Hrest|Hfresh].
  - by apply IH with c'.
  - destruct Hin as [->|Hin]; [|done].
    pose proof (putEntries_frame cache
                  (combine (List.map (fun u => requestKey (requestFor toURL u)) rest)
                           (List.map answer rest))
                  (Store.put cache (requestKey (requestFor toURL u)) (answer u) cs)
                  cache (requestKey (requestFor toURL u))) as Hframe.
    unfold putEntries in Hframe. rewrite Hframe.
    + by eapply matchIn_put.
    + intros Hk. apply Hnot. clear -Hk.
      revert Hk. generalize (List.map answer rest).
      induction rest as [|x rest IH]; intros rs; cbn; [done|].
      destruct rs as [|r rs]; cbn; [done|]. intros [H|H]; [by left|].
      right. by apply IH with rs.
Qed.

End Batches.

(** ** Pre-warming and installation *)

Section Prewarming.

Variable selfOrigin : string.
Variable toURL : string -> URL.
Variable net : Network.

Implicit Types (w : World) (cs : CacheStorage) (urls : list string).

Local Abbreviation keyOf := (urlKey toURL).

Lemma map_keyOf urls :
  List.map requestKey (List.map (requestFor toURL) urls) = List.map keyOf urls.
Proof. by rewrite List.map_map. Qed.

Lemma In_put_other name key r n (c : Cache) cs :
  In (n, c) (Store.put name key r cs) -> n <> name -> In (n, c) cs.
Proof.
  induction cs as [|[m c0] rest IH]; cbn; [done|].
  destruct (String.eqb m name) eqn:E; cbn.
  - apply String.eqb_eq in E. subst m. intros [[= <- <-]|H] Hne; [done|by right].
  - intros [H|H] Hne; [by left|]. right. by apply IH.
Qed.

Lemma In_putEntries_other cache (entries : list (string * Response)) n (c : Cache) cs :
  In (n, c) (putEntries cache entries cs) -> n <> cache -> In (n, c) cs.
Proof.
  revert cs. induction entries as [|[k r] rest IH]; intros cs; [done|].
  unfold putEntries in *. cbn. intros H Hne.
  apply In_put_other with cache k r; [|done]. by apply IH.
Qed.

Lemma In_open_other name n (c : Cache) cs :
  In (n, c) (Store.open name cs) -> n <> name -> In (n, c) cs.
Proof.
  unfold Store.open. destruct (Store.lookupCache name cs); [done|].
  intros H Hne. apply in_app_or in H as [H|[[= <- <-]|[]]]; done.
Qed.

Lemma matchAny_of_matchIn cache key cs r :
  (forall n (c : Cache), In (n, c) cs -> n <> cache -> c !! key = None) ->
  Store.matchIn cache key cs = Some r ->
  Store.matchAny key cs = Some r.
Proof.
  unfold Store.matchIn. induction cs as [|[n c] rest IH]; cbn; [done|].
  intros Hothers. destruct (String.eqb n cache) eqn:E.
  - intros ->. done.
  - apply String.eqb_neq in E.
    rewrite (Hothers n c) by (done || by left).
    apply IH. intros n' c' Hin. apply Hothers. by right.
Qed.

(** A successful batch into [cache], opened first, seen by [caches.match]. *)
Lemma matchAny_after_batch cache (answer : string -> Response) urls cs u :
  Store.matchAny (keyOf u) cs = None ->
  distinct (List.map keyOf urls) = true ->
  In u urls ->
  Store.matchAny (keyOf u)
    (putEntries cache (combine (List.map keyOf urls) (List.map answer urls))
                (Store.open cache cs))
  = Some (answer u).
Proof.
  intros Hmiss Hd Hin. apply matchAny_of_matchIn with cache.
  - intros n c Hc Hne. apply In_putEntries_other in Hc; [|done].
    apply In_open_other in Hc; [|done].
    by apply (proj1 (matchAny_None_In _ _) Hmiss n).
  - destruct (lookupCache_open cache cs) as [c Hc].
    by apply (putEntries_lookup toURL cache answer urls _ c).
Qed.

Lemma cache_addAll_success cache (answer : string -> Response) urls w :
  (forall m u, In u urls -> net m (requestFor toURL u) = NetResponse (answer u)) ->
  (forall u, In u urls -> ok (answer u) = true) ->
  distinct (List.map keyOf urls) = true ->
  cache_addAll toURL net cache urls w
  = (Fulfilled tt,
     withCaches
       (putEntries cache (combine (List.map keyOf urls) (List.map answer urls))
                   (caches w))
       (afterFetches (List.map (requestFor toURL) urls) w)).
Proof.
  intros Hnet Hok Hd. rewrite cache_addAll_eq. cbn zeta.
  rewrite (allSuccessful_answers toURL net answer) by done.
  by rewrite map_keyOf, Hd.
Qed.

(** X20. [cacheUrls] is all or nothing: every URL of the list is fetched,
    in order, and when the promise is rejected no lookup in any cache has
    changed. *)
Theorem cacheUrls_all_or_nothing urls w :
  fetchLog (snd (cacheUrls toURL net urls w))
  = (fetchLog w ++ List.map (requestFor toURL) urls)%list
  /\ (forall e,
         fst (cacheUrls toURL net urls w) = Rejected e ->
         forall name key,
           Store.matchIn name key (caches (snd (cacheUrls toURL net urls w)))
           = Store.matchIn name key (caches w)).
Proof.
  unfold cacheUrls, mbind, Async_bind, andThen, caches_open.
  rewrite cache_addAll_eq. cbn zeta.
  destruct (allSuccessful _) as [responses|].
  - destruct (distinct _); cbn; (split; [done|]); [done|].
    intros e _ name key. apply matchIn_open.
  - cbn. split; [done|]. intros e _ name key. apply matchIn_open.
Qed.

(** X21. When every URL of the list is answered by a 2xx response and no
    two of them are the same URL, [cacheUrls] is fulfilled, the dynamic
    cache holds each URL's response under that URL, and no other key
    changes in any cache. *)
Theorem cacheUrls_stores_every_url (answer : string -> Response) urls w :
  (forall m u, In u urls -> net m (requestFor toURL u) = NetResponse (answer u)) ->
  (forall u, In u urls -> ok (answer u) = true) ->
  distinct (List.map keyOf urls) = true ->
  fst (cacheUrls toURL net urls w) = Fulfilled tt
  /\ (forall u,
         In u urls ->
         Store.matchIn DYNAMIC_CACHE (keyOf u) (caches (snd (cacheUrls toURL net urls w)))
         = Some (answer u))
  /\ (forall name key,
         ~ In key (List.map keyOf urls) ->
         Store.matchIn name key (caches (snd (cacheUrls toURL net urls w)))
         = Store.matchIn name key (caches w)).
Proof.
  intros Hnet Hok Hd.
  unfold cacheUrls, mbind, Async_bind, andThen, caches_open.
  rewrite (cache_addAll_success _ answer) by done. cbn.
  split_and!; [done| |].
  - intros u Hin. destruct (lookupCache_open DYNAMIC_CACHE (caches w)) as [c Hc].
    by apply (putEntries_lookup toURL DYNAMIC_CACHE answer urls _ c).
  - intros name key Hnot.
    assert (Hnot' : ~ In key (List.map fst (combine (List.map keyOf urls)
                                                    (List.map answer urls)))).
    { intros Hk. apply Hnot. clear -Hk. revert Hk. generalize (List.map answer urls).
      induction urls as [|x rest IH]; intros rs; cbn; [done|].
      destruct rs as [|r rs]; cbn; [done|]. intros [H|H]; [by left|].
      right. by apply IH with rs. }
    rewrite putEntries_frame by exact Hnot'. apply matchIn_open.
Qed.

(** X22. A pre-warmed URL is available offline: after a successful
    [cacheUrls], if no cache held the URL before, a request for it is served
    from the store by network-first when the network fails, and by
    cache-first without any fetch. *)
Theorem prewarmed_url_served_offline
    (answer : string -> Response) urls w u request (offline : Network) e :
  (forall m u, In u urls -> net m (requestFor toURL u) = NetResponse (answer u)) ->
  (forall u, In u urls -> ok (answer u) = true) ->
  distinct (List.map keyOf urls) = true ->
  In u urls ->
  requestKey request = keyOf u ->
  Store.matchAny (keyOf u) (caches w) = None ->
  offline (List.length (fetchLog (snd (cacheUrls toURL net urls w)))) request
  = NetError e ->
  fst (networkFirst selfOrigin offline request (snd (cacheUrls toURL net urls w)))
  = Fulfilled (VResponse (answer u))
  /\ cacheFirst selfOrigin offline request (snd (cacheUrls toURL net urls w))
     = (Fulfilled (VResponse (answer u)), snd (cacheUrls toURL net urls w)).
Proof.
  intros Hnet Hok Hd Hin Hkey Hmiss Hoff.
  assert (Hstored : Store.matchAny (requestKey request)
                      (caches (snd (cacheUrls toURL net urls w)))
                    = Some (answer u)).
  { rewrite Hkey.
    unfold cacheUrls, mbind, Async_bind, andThen, caches_open.
    rewrite (cache_addAll_success _ answer) by done. cbn.
    by apply matchAny_after_batch. }
  split.
  - unfold networkFirst. run. rewrite (fetch_error offline _ _ e Hoff). cbn.
    by rewrite Hstored.
  - by apply cacheFirst_hit.
Qed.

End Prewarming.

Section Installation.

Variable selfOrigin : string.
Variable toURL : string -> URL.
Variable net : Network.

Implicit Types (w : World) (cs : CacheStorage).

Local Abbreviation keyOf := (urlKey toURL).

(** The install listener, in terms of the batch it runs. *)
Lemma install_eq w :
  install toURL net w
  = match cache_addAll toURL net STATIC_CACHE STATIC_ASSETS
            (withCaches (Store.open STATIC_CACHE (caches w)) w) with
    | (Fulfilled _, w') =>
        (Fulfilled tt, withCaches (Store.open API_CACHE (caches w')) w')
    | (Rejected e, w') =>
        (Rejected e, withCaches (Store.open API_CACHE (caches w')) w')
    end.
Proof.
  unfold install, promiseAllPair, mbind, Async_bind, andThen, caches_open, resolve.
  by destruct (cache_addAll toURL net STATIC_CACHE STATIC_ASSETS _) as [[[]|e] w'].
Qed.

Lemma install_success (answer : string -> Response) w :
  (forall m a, In a STATIC_ASSETS ->
               net m (requestFor toURL a) = NetResponse (answer a)) ->
  (forall a, In a STATIC_ASSETS -> ok (answer a) = true) ->
  distinct (List.map keyOf STATIC_ASSETS) = true ->
  install toURL net w
  = (Fulfilled tt,
     withCaches
       (Store.open API_CACHE
          (putEntries STATIC_CACHE
             (combine (List.map keyOf STATIC_ASSETS) (List.map answer STATIC_ASSETS))
             (Store.open STATIC_CACHE (caches w))))
       (afterFetches (List.map (requestFor toURL) STATIC_ASSETS) w)).
Proof.
  intros Hnet Hok Hd. rewrite install_eq.
  by rewrite (cache_addAll_success toURL net STATIC_CACHE answer).
Qed.

Lemma install_lookup (answer : string -> Response) w a :
  (forall m a, In a STATIC_ASSETS ->
               net m (requestFor toURL a) = NetResponse (answer a)) ->
  (forall a, In a STATIC_ASSETS -> ok (answer a) = true) ->
  distinct (List.map keyOf STATIC_ASSETS) = true ->
  In a STATIC_ASSETS ->
  Store.matchIn STATIC_CACHE (keyOf a) (caches (snd (install toURL net w)))
  = Some (answer a).
Proof.
  intros Hnet Hok Hd Hin. rewrite (install_success answer) by done.
  cbn [fst snd caches withCaches]. rewrite matchIn_open.
  destruct (lookupCache_open STATIC_CACHE (caches w)) as [c Hc].
  by apply (putEntries_lookup toURL STATIC_CACHE answer STATIC_ASSETS _ c).
Qed.

(** X23. When every listed asset is answered by a 2xx response, and no two
    of them are the same URL, installation succeeds: the static cache holds
    each asset's response under the asset's URL, and the API cache exists. *)
Theorem install_stores_every_asset (answer : string -> Response) w :
  (forall m a, In a STATIC_ASSETS ->
               net m (requestFor toURL a) = NetResponse (answer a)) ->
  (forall a, In a STATIC_ASSETS -> ok (answer a) = true) ->
  distinct (List.map keyOf STATIC_ASSETS) = true ->
  fst (install toURL net w) = Fulfilled tt
  /\ (forall a,
         In a STATIC_ASSETS ->
         Store.matchIn STATIC_CACHE (keyOf a) (caches (snd (install toURL net w)))
         = Some (answer a))
  /\ is_Some (Store.lookupCache API_CACHE (caches (snd (install toURL net w)))).
Proof.
  intros Hnet Hok Hd. split_and!.
  - by rewrite (install_success answer).
  - intros a Hin. by apply install_lookup.
  - rewrite (install_success answer) by done. cbn [fst snd caches withCaches].
    match goal with
    | |- is_Some (Store.lookupCache API_CACHE (Store.open API_CACHE ?cs)) =>
        destruct (lookupCache_open API_CACHE cs) as [c ->]
    end.
    eauto.
Qed.

(** X24. Installation fails as a whole: when one listed asset never gets a
    2xx response, the install promise is rejected and no lookup in any cache
    has changed, although every asset has been fetched and the static and
    API caches have been created. *)
Theorem install_fails_as_a_whole (a : string) w :
  In a STATIC_ASSETS ->
  neverSucceeds net (requestFor toURL a) ->
  fst (install toURL net w) = Rejected "TypeError"
  /\ (forall name key,
         Store.matchIn name key (caches (snd (install toURL net w)))
         = Store.matchIn name key (caches w))
  /\ fetchLog (snd (install toURL net w))
     = (fetchLog w ++ List.map (requestFor toURL) STATIC_ASSETS)%list
  /\ is_Some (Store.lookupCache STATIC_CACHE (caches (snd (install toURL net w))))
  /\ is_Some (Store.lookupCache API_CACHE (caches (snd (install toURL net w)))).
Proof.
  intros Hin Hfail. rewrite install_eq, cache_addAll_eq. cbn zeta.
  rewrite (allSuccessful_failure toURL net STATIC_ASSETS _ a Hin Hfail).
  cbn [fst snd caches fetchLog withCaches afterFetches].
  split_and!; try done.
  - intros name key. by rewrite !matchIn_open.
  - rewrite lookupCache_open_other by done.
    destruct (lookupCache_open STATIC_CACHE (caches w)) as [c ->]. eauto.
  - destruct (lookupCache_open API_CACHE (Store.open STATIC_CACHE (caches w)))
      as [c ->]. eauto.
Qed.

(** X25. After a successful installation the listed assets load offline:
    when no cache held an asset's URL before, cache-first serves a request
    for that URL from the store, with no fetch, whatever the network. *)
Theorem installed_asset_served_without_network
    (answer : string -> Response) w a request (later : Network) :
  (forall m a, In a STATIC_ASSETS ->
               net m (requestFor toURL a) = NetResponse (answer a)) ->
  (forall a, In a STATIC_ASSETS -> ok (answer a) = true) ->
  distinct (List.map keyOf STATIC_ASSETS) = true ->
  In a STATIC_ASSETS ->
  requestKey request = keyOf a ->
  Store.matchAny (keyOf a) (caches w) = None ->
  cacheFirst selfOrigin later request (snd (install toURL net w))
  = (Fulfilled (VResponse (answer a)), snd (install toURL net w)).
Proof.
  intros Hnet Hok Hd Hin Hkey Hmiss. apply cacheFirst_hit.
  rewrite Hkey, (install_success answer) by done.
  cbn [fst snd caches withCaches].
  apply matchAny_of_matchIn with STATIC_CACHE.
  - intros n c Hc Hne.
    assert (Hc' : In (n, c)
                    (putEntries STATIC_CACHE
                       (combine (List.map keyOf STATIC_ASSETS)
                                (List.map answer STATIC_ASSETS))
                       (Store.open STATIC_CACHE (caches w))) \/ c = ∅)
      by (by apply In_open with API_CACHE).
    destruct Hc' as [Hc'| ->]; [|apply lookup_empty].
    apply In_putEntries_other in Hc'; [|done].
    apply In_open_other in Hc'; [|done].
    by apply (proj1 (matchAny_None_In _ _) Hmiss n).
  - rewrite matchIn_open.
    destruct (lookupCache_open STATIC_CACHE (caches w)) as [c Hc].
    by apply (putEntries_lookup toURL STATIC_CACHE answer STATIC_ASSETS _ c).
Qed.

(** X26. After a successful installation the fallback generator answers a
    navigation with the installed root document, provided ['/index.html']
    stands for the URL the generator looks up. *)
Theorem installed_root_document_is_the_fallback
    (answer : string -> Response) w request :
  (forall m a, In a STATIC_ASSETS ->
               net m (requestFor toURL a) = NetResponse (answer a)) ->
  (forall a, In a STATIC_ASSETS -> ok (answer a) = true) ->
  distinct (List.map keyOf STATIC_ASSETS) = true ->
  toURL "/index.html" = resolveURL selfOrigin "/index.html" ->
  mode request = "navigate" ->
  fst (getOfflineFallback selfOrigin request (snd (install toURL net w)))
  = Fulfilled (VResponse (answer "/index.html")).
Proof.
  intros Hnet Hok Hd Hurl Hmode.
  rewrite getOfflineFallback_navigate by done. cbn [fst]. rewrite matchIn_open.
  rewrite <- Hurl.
  assert (Hin : In "/index.html" STATIC_ASSETS)
    by (unfold STATIC_ASSETS; cbn; tauto).
  pose proof (install_lookup answer w "/index.html" Hnet Hok Hd Hin) as H.
  unfold urlKey, requestKey, requestFor, GET in H. cbn [url] in H.
  by rewrite H.
Qed.

End Installation.

(** ** Background sync as a whole *)

Section BackgroundSyncProperties.

Variable selfOrigin : string.
Variable net : Network.

Implicit Types (w : World).

Lemma syncAnalyticsData_idle w :
  syncAnalyticsData selfOrigin net w = (Fulfilled tt, w).
Proof. reflexivity. Qed.

Lemma doBackgroundSync_eq w :
  doBackgroundSync selfOrigin net w
  = (Fulfilled tt,
     match net (List.length (fetchLog w)) (restaurantsRequest selfOrigin) with
     | NetResponse r =>
         if ok r
         then withCaches
                (Store.put API_CACHE (href (resolveURL selfOrigin "/api/restaurants")) r
                           (Store.open API_CACHE (caches w)))
                (afterFetch (restaurantsRequest selfOrigin) w)
         else afterFetch (restaurantsRequest selfOrigin) w
     | NetError _ => afterFetch (restaurantsRequest selfOrigin) w
     end).
Proof.
  unfold doBackgroundSync, updateCachedData. run.
  rewrite syncOfflineOrders_idle, syncAnalyticsData_idle.
  destruct (net (List.length (fetchLog w)) (restaurantsRequest selfOrigin))
    as [r|e] eqn:Hnet.
  - rewrite (fetch_response net _ _ _ Hnet). by destruct (ok r).
  - by rewrite (fetch_error net _ _ _ Hnet).
Qed.

(** X27. Background sync is never rejected and sends nothing: its only
    fetch is the GET for [/api/restaurants], the order queue is as before,
    and the store changes only when that fetch gives a 2xx response, which
    is then put in the API cache under that URL. *)
Theorem doBackgroundSync_only_refreshes_restaurants w :
  fst (doBackgroundSync selfOrigin net w) = Fulfilled tt
  /\ fetchLog (snd (doBackgroundSync selfOrigin net w))
     = (fetchLog w ++ [restaurantsRequest selfOrigin])%list
  /\ method (restaurantsRequest selfOrigin) = "GET"
  /\ offlineOrders (snd (doBackgroundSync selfOrigin net w)) = offlineOrders w
  /\ caches (snd (doBackgroundSync selfOrigin net w))
     = match net (List.length (fetchLog w)) (restaurantsRequest selfOrigin) with
       | NetResponse r =>
           if ok r
           then Store.put API_CACHE (href (resolveURL selfOrigin "/api/restaurants")) r
                          (Store.open API_CACHE (caches w))
           else caches w
       | NetError _ => caches w
       end.
Proof.
  rewrite doBackgroundSync_eq. cbn [fst snd].
  destruct (net (List.length (fetchLog w)) (restaurantsRequest selfOrigin)) as [r|e];
    [destruct (ok r)|]; by split_and!.
Qed.

(** X28. What background sync has fetched is what stale-while-revalidate
    serves next: after a sync whose fetch gave a 2xx response, a request for
    [/api/restaurants] is answered with that response, whatever the network
    does then. *)
Theorem background_refresh_feeds_staleWhileRevalidate
    request w r (later : Network) :
  url request = resolveURL selfOrigin "/api/restaurants" ->
  net (List.length (fetchLog w)) (restaurantsRequest selfOrigin) = NetResponse r ->
  ok r = true ->
  fst (staleWhileRevalidate selfOrigin later request
         (snd (doBackgroundSync selfOrigin net w)))
  = Fulfilled (VResponse r).
Proof.
  intros Hurl Hnet Hok.
  assert (Hpart : getCacheName request = API_CACHE).
  { unfold getCacheName. rewrite Hurl. reflexivity. }
  assert (Hkey : requestKey request = href (resolveURL selfOrigin "/api/restaurants")).
  { unfold requestKey. by rewrite Hurl. }
  assert (Hstored : Store.matchIn (getCacheName request) (requestKey request)
                      (caches (snd (doBackgroundSync selfOrigin net w))) = Some r).
  { rewrite doBackgroundSync_eq, Hnet, Hok, Hpart, Hkey. cbn [snd caches withCaches].
    destruct (lookupCache_open API_CACHE (caches w)) as [c Hc].
    by eapply matchIn_put. }
  rewrite staleWhileRevalidate_cases. cbn zeta. rewrite Hstored.
  by destruct (later _ request).
Qed.

End BackgroundSyncProperties.

(** ** The further properties at concrete inputs *)

Lemma fetchEvent_never_rejects_witness :
  exists v, fst (fetchEvent sampleOrigin netDown apiRequest emptyWorld)
            = Some (Fulfilled v).
Proof. apply (fetchEvent_never_rejects sampleOrigin netDown apiRequest emptyWorld). reflexivity. Defined.

Lemma fetchEvent_fetches_at_most_once_witness :
  (fetchLog (snd (fetchEvent sampleOrigin (netAnswers payloadQ) apiRequest warmWorld))
   = fetchLog warmWorld
   \/ fetchLog (snd (fetchEvent sampleOrigin (netAnswers payloadQ) apiRequest warmWorld))
      = (fetchLog warmWorld ++ [apiRequest])%list)
  /\ offlineOrders (snd (fetchEvent sampleOrigin (netAnswers payloadQ) apiRequest warmWorld))
     = offlineOrders warmWorld.
Proof.
  apply (fetchEvent_fetches_at_most_once sampleOrigin (netAnswers payloadQ)
           apiRequest warmWorld).
  reflexivity.
Defined.

Lemma fetchEvent_touches_one_key_witness :
  Store.matchIn API_CACHE (requestKey apiRequest)
    (caches (snd (fetchEvent sampleOrigin (netAnswers payloadQ) webpRequest warmWorld)))
  = Store.matchIn API_CACHE (requestKey apiRequest) (caches warmWorld).
Proof.
  apply (fetchEvent_touches_one_key sampleOrigin (netAnswers payloadQ) webpRequest
           warmWorld API_CACHE (requestKey apiRequest)).
  - reflexivity.
  - vm_compute. discriminate.
Defined.

Lemma fetchEvent_keeps_entries_witness :
  is_Some (Store.matchIn API_CACHE (requestKey apiRequest)
             (caches (snd (fetchEvent sampleOrigin (netAnswers notFound)
                             apiRequest warmWorld)))).
Proof.
  apply (proj1 (fetchEvent_keeps_entries sampleOrigin (netAnswers notFound)
                  apiRequest warmWorld eq_refl)).
  exists payloadP. vm_compute. reflexivity.
Defined.

Lemma fetchEvent_stores_only_success_witness :
  allStoredOk (caches (snd (fetchEvent sampleOrigin (netAnswers notFound)
                              ordersPage emptyWorld))).
Proof.
  apply (fetchEvent_stores_only_success sampleOrigin (netAnswers notFound)
           ordersPage emptyWorld).
  - reflexivity.
  - intros name c key r [].
Defined.

Lemma staleWhileRevalidate_undefined_iff_witness :
  fst (staleWhileRevalidate sampleOrigin netDown apiRequest emptyWorld)
  = Fulfilled VUndefined.
Proof.
  apply (proj2 (staleWhileRevalidate_undefined_iff sampleOrigin netDown
                  apiRequest emptyWorld)).
  split; [reflexivity|]. exists "Failed to fetch". reflexivity.
Defined.

Lemma staleWhileRevalidate_miss_response_witness :
  fst (staleWhileRevalidate sampleOrigin (netAnswers notFound) apiRequest emptyWorld)
  = Fulfilled (VResponse notFound)
  /\ Store.matchIn (getCacheName apiRequest) (requestKey apiRequest)
       (caches (snd (staleWhileRevalidate sampleOrigin (netAnswers notFound)
                       apiRequest emptyWorld)))
     = (if ok notFound then Some notFound else None).
Proof.
  apply (staleWhileRevalidate_miss_response sampleOrigin (netAnswers notFound)
           apiRequest emptyWorld notFound); reflexivity.
Defined.

Lemma staleWhileRevalidate_serves_last_refresh_witness :
  fst (staleWhileRevalidate sampleOrigin (netOnceThenDown payloadQ) apiRequest
         (snd (staleWhileRevalidate sampleOrigin (netOnceThenDown payloadQ)
                 apiRequest warmWorld)))
  = Fulfilled (VResponse payloadQ).
Proof.
  apply (staleWhileRevalidate_serves_last_refresh sampleOrigin
           (netOnceThenDown payloadQ) apiRequest warmWorld payloadQ); reflexivity.
Defined.

Lemma cacheFirst_networkFirst_respond_witness :
  (exists r, fst (cacheFirst sampleOrigin netDown webpRequest emptyWorld)
             = Fulfilled (VResponse r))
  /\ (exists r, fst (networkFirst sampleOrigin netDown webpRequest emptyWorld)
                = Fulfilled (VResponse r)).
Proof.
  apply (cacheFirst_networkFirst_respond sampleOrigin netDown webpRequest emptyWorld).
  vm_compute. discriminate.
Defined.

Lemma listed_suffix_is_static_witness :
  isAPIRequest (url trailingSlashRequest) = true
  /\ isStaticAsset (url trailingSlashRequest) = true
  /\ selectStrategy (url trailingSlashRequest) = CACHE_FIRST
  /\ getCacheName trailingSlashRequest = STATIC_CACHE.
Proof.
  split; [reflexivity|].
  apply (listed_suffix_is_static trailingSlashRequest "/").
  - left. reflexivity.
  - reflexivity.
Defined.

Lemma image_rule_is_webp_only_witness :
  endsWith (pathname (url webpRequest)) ".webp" = true.
Proof. apply (image_rule_is_webp_only (url webpRequest)); reflexivity. Defined.

Lemma strategy_and_partition_agree_witness :
  getCacheName apiRequest = API_CACHE.
Proof.
  apply (proj1 (proj1 (strategy_and_partition_agree apiRequest))). reflexivity.
Defined.

Lemma cacheFirst_entry_survives_activation_witness :
  cacheFirst sampleOrigin (netOnceThenDown payloadP) webpRequest
    (snd (activate (snd (cacheFirst sampleOrigin (netOnceThenDown payloadP)
                           webpRequest emptyWorld))))
  = (Fulfilled (VResponse payloadP),
     snd (activate (snd (cacheFirst sampleOrigin (netOnceThenDown payloadP)
                           webpRequest emptyWorld)))).
Proof.
  apply (cacheFirst_entry_survives_activation sampleOrigin (netOnceThenDown payloadP)
           webpRequest emptyWorld payloadP); reflexivity.
Defined.

Lemma stale_generation_served_until_activation_witness :
  cacheFirst sampleOrigin netDown ordersPage oldGenerationWorld
  = (Fulfilled (VResponse payloadQ), oldGenerationWorld)
  /\ Store.matchAny (requestKey ordersPage) (caches (snd (activate oldGenerationWorld)))
     = None.
Proof.
  apply (stale_generation_served_until_activation sampleOrigin netDown ordersPage
           oldGenerationWorld payloadQ).
  - vm_compute. reflexivity.
  - intros name c [H|[]] Hcur. injection H as <- <-. vm_compute in Hcur. discriminate.
Defined.

Lemma getOfflineFallback_harmless_witness :
  snd (getOfflineFallback sampleOrigin apiRequest warmWorld) = warmWorld.
Proof.
  apply (proj2 (proj2 (proj2 (proj2
           (getOfflineFallback_harmless sampleOrigin apiRequest warmWorld))))).
  vm_compute. discriminate.
Defined.

Lemma networkFirst_offline_after_online_witness :
  fst (networkFirst sampleOrigin (netOnceThenDown payloadQ) ordersPage
         (snd (networkFirst sampleOrigin (netOnceThenDown payloadQ)
                 ordersPage emptyWorld)))
  = Fulfilled (VResponse payloadQ).
Proof.
  apply (networkFirst_offline_after_online sampleOrigin (netOnceThenDown payloadQ)
           ordersPage emptyWorld payloadQ "Failed to fetch"); reflexivity.
Defined.

Lemma networkFirst_offline_returns_shadowing_copy_witness :
  Store.matchIn (getCacheName ordersPage) (requestKey ordersPage)
    (caches (snd (networkFirst sampleOrigin (netOnceThenDown payloadQ)
                    ordersPage shadowWorld)))
  = Some payloadQ
  /\ fst (networkFirst sampleOrigin (netOnceThenDown payloadQ) ordersPage
            (snd (networkFirst sampleOrigin (netOnceThenDown payloadQ)
                    ordersPage shadowWorld)))
     = Fulfilled (VResponse payloadP).
Proof.
  apply (networkFirst_offline_returns_shadowing_copy sampleOrigin
           (netOnceThenDown payloadQ) ordersPage shadowWorld
           STATIC_CACHE {[ requestKey ordersPage := payloadP ]} []
           payloadP payloadQ "Failed to fetch").
  - reflexivity.
  - vm_compute. reflexivity.
  - vm_compute. discriminate.
  - reflexivity.
  - reflexivity.
  - reflexivity.
Defined.

Lemma cacheUrls_all_or_nothing_witness :
  fst (cacheUrls sampleToURL (netWithout "/menu" payloadP) prewarmList warmWorld)
  = Rejected "TypeError"
  /\ Store.matchIn DYNAMIC_CACHE (urlKey sampleToURL "/orders")
       (caches (snd (cacheUrls sampleToURL (netWithout "/menu" payloadP)
                       prewarmList warmWorld)))
     = Store.matchIn DYNAMIC_CACHE (urlKey sampleToURL "/orders") (caches warmWorld).
Proof.
  assert (H : fst (cacheUrls sampleToURL (netWithout "/menu" payloadP)
                     prewarmList warmWorld) = Rejected "TypeError")
    by (vm_compute; reflexivity).
  split; [exact H|].
  apply (proj2 (cacheUrls_all_or_nothing sampleToURL (netWithout "/menu" payloadP)
                  prewarmList warmWorld) "TypeError" H).
Defined.

Lemma cacheUrls_stores_every_url_witness :
  fst (cacheUrls sampleToURL (netAnswers payloadP) prewarmList emptyWorld)
  = Fulfilled tt
  /\ Store.matchIn DYNAMIC_CACHE (urlKey sampleToURL "/menu?day=today")
       (caches (snd (cacheUrls sampleToURL (netAnswers payloadP) prewarmList emptyWorld)))
     = Some payloadP.
Proof.
  pose proof (cacheUrls_stores_every_url sampleToURL (netAnswers payloadP)
                (fun _ => payloadP) prewarmList emptyWorld
                (fun _ _ _ => eq_refl) (fun _ _ => eq_refl) eq_refl)
    as (Hout & Hstored & _).
  split; [exact Hout|]. apply Hstored. right. left. reflexivity.
Defined.

Lemma prewarmed_url_served_offline_witness :
  fst (networkFirst sampleOrigin netDown ordersPage
         (snd (cacheUrls sampleToURL (netAnswers payloadP) prewarmList emptyWorld)))
  = Fulfilled (VResponse payloadP)
  /\ cacheFirst sampleOrigin netDown ordersPage
       (snd (cacheUrls sampleToURL (netAnswers payloadP) prewarmList emptyWorld))
     = (Fulfilled (VResponse payloadP),
        snd (cacheUrls sampleToURL (netAnswers payloadP) prewarmList emptyWorld)).
Proof.
  apply (prewarmed_url_served_offline sampleOrigin sampleToURL (netAnswers payloadP)
           (fun _ => payloadP) prewarmList emptyWorld "/orders" ordersPage
           netDown "Failed to fetch").
  - intros m u Hin. reflexivity.
  - intros u Hin. reflexivity.
  - vm_compute. reflexivity.
  - left. reflexivity.
  - vm_compute. reflexivity.
  - reflexivity.
  - reflexivity.
Defined.

Lemma install_stores_every_asset_witness :
  fst (install sampleToURL (netAnswers payloadP) emptyWorld) = Fulfilled tt
  /\ Store.matchIn STATIC_CACHE (urlKey sampleToURL "/index.html")
       (caches (snd (install sampleToURL (netAnswers payloadP) emptyWorld)))
     = Some payloadP.
Proof.
  assert (Hd : distinct (List.map (urlKey sampleToURL) STATIC_ASSETS) = true)
    by (vm_compute; reflexivity).
  pose proof (install_stores_every_asset sampleToURL (netAnswers payloadP)
                (fun _ => payloadP) emptyWorld
                (fun _ _ _ => eq_refl) (fun _ _ => eq_refl) Hd)
    as (Hout & Hstored & _).
  split; [exact Hout|]. apply Hstored. right. left. reflexivity.
Defined.

Lemma install_fails_as_a_whole_witness :
  fst (install sampleToURL (netWithout "/config.js" payloadP) emptyWorld)
  = Rejected "TypeError"
  /\ (forall name key,
         Store.matchIn name key
           (caches (snd (install sampleToURL (netWithout "/config.js" payloadP)
                           emptyWorld)))
         = Store.matchIn name key (caches emptyWorld)).
Proof.
  pose proof (install_fails_as_a_whole sampleToURL (netWithout "/config.js" payloadP)
                "/config.js" emptyWorld) as H.
  destruct H as (Hout & Hsame & _).
  - unfold STATIC_ASSETS. do 12 right. left. reflexivity.
  - intros n. vm_compute. exact I.
  - split; [exact Hout | exact Hsame].
Defined.

Lemma installed_asset_served_without_network_witness :
  cacheFirst sampleOrigin netDown (GET "navigate" (mkURL sampleOrigin "/" ""))
    (snd (install sampleToURL (netAnswers payloadP) emptyWorld))
  = (Fulfilled (VResponse payloadP),
     snd (install sampleToURL (netAnswers payloadP) emptyWorld)).
Proof.
  apply (installed_asset_served_without_network sampleOrigin sampleToURL
           (netAnswers payloadP) (fun _ => payloadP) emptyWorld "/"
           (GET "navigate" (mkURL sampleOrigin "/" "")) netDown).
  - intros m a Hin. reflexivity.
  - intros a Hin. reflexivity.
  - vm_compute. reflexivity.
  - left. reflexivity.
  - vm_compute. reflexivity.
  - reflexivity.
Defined.

Lemma installed_root_document_is_the_fallback_witness :
  fst (getOfflineFallback sampleOrigin pageRequest
         (snd (install sampleToURL (netAnswers payloadP) emptyWorld)))
  = Fulfilled (VResponse payloadP).
Proof.
  apply (installed_root_document_is_the_fallback sampleOrigin sampleToURL
           (netAnswers payloadP) (fun _ => payloadP) emptyWorld pageRequest).
  - intros m a Hin. reflexivity.
  - intros a Hin. reflexivity.
  - vm_compute. reflexivity.
  - vm_compute. reflexivity.
  - reflexivity.
Defined.

Lemma background_refresh_feeds_staleWhileRevalidate_witness :
  fst (staleWhileRevalidate sampleOrigin netDown apiRequest
         (snd (doBackgroundSync sampleOrigin (netAnswers payloadQ) emptyWorld)))
  = Fulfilled (VResponse payloadQ).
Proof.
  apply (background_refresh_feeds_staleWhileRevalidate sampleOrigin
           (netAnswers payloadQ) apiRequest emptyWorld payloadQ netDown); reflexivity.
Defined.
